(** * TikTok username checker: a shallow embedding of [checker.py]

    The development follows the layout of the Python module:
    - [PyStr]: Python's [str] as a sequence of code points, with the [str]
      operations the checker relies on ([lstrip('@')], [strip()], [in],
      [startswith], [splitlines], the compiled [USERNAME_PATTERN]);
    - [Unicode]: the case mapping behind [str.lower()] and [str.upper()],
      which belongs to the Python runtime and is taken as a parameter;
    - the result model ([UsernameStatus], [CheckResult]);
    - the input normaliser ([validate_username], [clean_username]);
    - the response classifier ([_analyze_response]);
    - the effectful part (API probe, retry wrapper, bulk loop) over an
      abstract transport, written in a small state-and-exception monad;
    - the report formatter, the session, and the input handling of
      [main.py].

    Left out, since they decide nothing here: the [logger] calls and the
    semaphore, which only bounds how many checks may run at once.
    Exceptions are the subclasses of [Exception]; cancellation is not
    modelled. *)

From Stdlib Require Import ZArith NArith List Bool Lia.
From Stdlib Require Import Strings.Byte.
From Stdlib Require Import Sorting.Permutation.
Import ListNotations.

Open Scope Z_scope.

(** ** Python [str] *)

Module PyStr.

(** A character is a Unicode code point; a [str] is a sequence of them. *)
Definition char : Type := N.

Inductive string : Type :=
  | EmptyString
  | String (c : char) (t : string).

(** String literals are read as UTF-8 text and denote the code points they
    spell. *)
Fixpoint decode (bs : list N) : string :=
  match bs with
  | [] => EmptyString
  | b0 :: r0 =>
      if (b0 <? 128)%N then String b0 (decode r0)
      else
        match r0 with
        | [] => EmptyString
        | b1 :: r1 =>
            if (b0 <? 224)%N then
              String ((b0 - 192) * 64 + (b1 - 128))%N (decode r1)
            else
              match r1 with
              | [] => EmptyString
              | b2 :: r2 =>
                  if (b0 <? 240)%N then
                    String ((b0 - 224) * 4096 + (b1 - 128) * 64
                            + (b2 - 128))%N
                           (decode r2)
                  else
                    match r2 with
                    | [] => EmptyString
                    | b3 :: r3 =>
                        String ((b0 - 240) * 262144 + (b1 - 128) * 4096
                                + (b2 - 128) * 64 + (b3 - 128))%N
                               (decode r3)
                    end
              end
        end
  end.

Definition encode_char (c : char) : list N :=
  (if c <? 128 then [c]
   else if c <? 2048 then [192 + c / 64; 128 + c mod 64]
   else if c <? 65536 then
     [224 + c / 4096; 128 + (c / 64) mod 64; 128 + c mod 64]
   else
     [240 + c / 262144; 128 + (c / 4096) mod 64; 128 + (c / 64) mod 64;
      128 + c mod 64])%N.

Fixpoint encode (s : string) : list N :=
  match s with
  | EmptyString => []
  | String c t => encode_char c ++ encode t
  end.

Definition of_bytes (bs : list Byte.byte) : string :=
  decode (map Byte.to_N bs).

Fixpoint bytes_of (ns : list N) : option (list Byte.byte) :=
  match ns with
  | [] => Some []
  | n :: r =>
      match Byte.of_N n, bytes_of r with
      | Some b, Some bs => Some (b :: bs)
      | _, _ => None
      end
  end.

Definition to_bytes (s : string) : option (list Byte.byte) :=
  bytes_of (encode s).

Declare Scope pystr_scope.
Delimit Scope pystr_scope with str.
Bind Scope pystr_scope with string.
String Notation string of_bytes to_bytes : pystr_scope.

(** [a + b] on strings. *)
Fixpoint append (a b : string) : string :=
  match a with
  | EmptyString => b
  | String c t => String c (append t b)
  end.

Infix "++" := append (right associativity, at level 60) : pystr_scope.

(** [len(s)]: the number of code points. *)
Fixpoint len_str (s : string) : nat :=
  match s with
  | EmptyString => O
  | String _ t => S (len_str t)
  end.

(** [a == b] on strings. *)
Fixpoint str_eqb (a b : string) : bool :=
  match a, b with
  | EmptyString, EmptyString => true
  | String c t, String c' t' => (c =? c')%N && str_eqb t t'
  | _, _ => false
  end.

Infix "=?" := str_eqb (at level 70) : pystr_scope.

(** [s.startswith(prefix)]. *)
Fixpoint startswith (prefix s : string) : bool :=
  match prefix, s with
  | EmptyString, _ => true
  | String a p', String b s' => (a =? b)%N && startswith p' s'
  | String _ _, EmptyString => false
  end.

(** The code of a character as an integer, and the one-character string. *)
Definition code (c : char) : Z := Z.of_N c.
Definition char_of (n : Z) : char := Z.to_N n.
Definition chr (c : char) : string := String c EmptyString.

Definition dquote : char := char_of 34.
Definition dq : string := chr dquote.
Definition newline : char := char_of 10.

Definition between (lo hi : Z) (c : char) : bool :=
  (lo <=? code c) && (code c <=? hi).

(** [str.isspace] of one character, which is also what [strip()] and
    [split()] remove: the characters of bidirectional type WS, B or S and
    of category Zs.  These are TAB, LF, VT, FF, CR, the separators
    0x1c-0x1f, the space, U+0085, U+00A0, U+1680, U+2000-U+200A, U+2028,
    U+2029, U+202F, U+205F and U+3000. *)
Definition is_space (c : char) : bool :=
  between 9 13 c || between 28 32 c
  || (code c =? 133) || (code c =? 160) || (code c =? 5760)
  || between 8192 8202 c
  || (code c =? 8232) || (code c =? 8233) || (code c =? 8239)
  || (code c =? 8287) || (code c =? 12288).

Definition is_upper (c : char) : bool := between 65 90 c.
Definition is_lower (c : char) : bool := between 97 122 c.
Definition is_digit (c : char) : bool := between 48 57 c.

(** Case folding of the letters A-Z and a-z alone. *)
Definition ascii_lower_char (c : char) : char :=
  if is_upper c then (c + 32)%N else c.

Definition ascii_upper_char (c : char) : char :=
  if is_lower c then (c - 32)%N else c.

Fixpoint map_str (f : char -> char) (s : string) : string :=
  match s with
  | EmptyString => EmptyString
  | String c t => String (f c) (map_str f t)
  end.

Definition ascii_lower (s : string) : string := map_str ascii_lower_char s.
Definition ascii_upper (s : string) : string := map_str ascii_upper_char s.

(** [s.lstrip(chars)]: drop the longest prefix made of characters of the set. *)
Fixpoint lstrip_by (p : char -> bool) (s : string) : string :=
  match s with
  | EmptyString => EmptyString
  | String c t => if p c then lstrip_by p t else s
  end.

(** [s.rstrip(chars)]. *)
Fixpoint rstrip_by (p : char -> bool) (s : string) : string :=
  match s with
  | EmptyString => EmptyString
  | String c t =>
      match rstrip_by p t with
      | EmptyString => if p c then EmptyString else chr c
      | t' => String c t'
      end
  end.

(** [s.lstrip('@')]. *)
Definition lstrip_at (s : string) : string :=
  lstrip_by (fun c => code c =? 64) s.

(** [s.strip()]: whitespace removed at both ends. *)
Definition strip (s : string) : string :=
  rstrip_by is_space (lstrip_by is_space s).

(** [needle in hay]. *)
Fixpoint str_in (needle hay : string) : bool :=
  startswith needle hay ||
  match hay with
  | EmptyString => false
  | String _ t => str_in needle t
  end.

Fixpoint forall_chars (p : char -> bool) (s : string) : bool :=
  match s with
  | EmptyString => true
  | String c t => p c && forall_chars p t
  end.

(** Every character is below 128. *)
Definition is_ascii (s : string) : bool :=
  forall_chars (fun c => code c <? 128) s.

(** [s * n] for a string [s] and a count [n]. *)
Fixpoint repeat_str (s : string) (n : nat) : string :=
  match n with
  | O => EmptyString
  | S k => s ++ repeat_str s k
  end.

(** ["sep".join(lines)]. *)
Fixpoint join (sep : string) (l : list string) : string :=
  match l with
  | [] => EmptyString
  | [x] => x
  | x :: rest => x ++ sep ++ join sep rest
  end.

(** [str(n)] for an integer: its decimal digits, with a minus sign when it
    is negative. *)
Fixpoint digits (d : Decimal.uint) : string :=
  match d with
  | Decimal.Nil => EmptyString
  | Decimal.D0 r => String 48%N (digits r)
  | Decimal.D1 r => String 49%N (digits r)
  | Decimal.D2 r => String 50%N (digits r)
  | Decimal.D3 r => String 51%N (digits r)
  | Decimal.D4 r => String 52%N (digits r)
  | Decimal.D5 r => String 53%N (digits r)
  | Decimal.D6 r => String 54%N (digits r)
  | Decimal.D7 r => String 55%N (digits r)
  | Decimal.D8 r => String 56%N (digits r)
  | Decimal.D9 r => String 57%N (digits r)
  end.

Definition str_of_Z (n : Z) : string :=
  match Z.to_int n with
  | Decimal.Pos d => digits d
  | Decimal.Neg d => String 45%N (digits d)
  end.

(** The character class [[a-zA-Z0-9_.]]. *)
Definition is_handle_char (c : char) : bool :=
  is_lower c || is_upper c || is_digit c || (code c =? 95) || (code c =? 46).

(** [[a-zA-Z0-9_.]{2,24}] against a whole string. *)
Definition class_run_2_24 (s : string) : bool :=
  forall_chars is_handle_char s &&
  (2 <=? Z.of_nat (len_str s)) && (Z.of_nat (len_str s) <=? 24).

(** The string without its last character, and that last character. *)
Fixpoint chop_last (s : string) : string :=
  match s with
  | EmptyString => EmptyString
  | String c EmptyString => EmptyString
  | String c t => String c (chop_last t)
  end.

Fixpoint last_char (s : string) : option char :=
  match s with
  | EmptyString => None
  | String c EmptyString => Some c
  | String _ t => last_char t
  end.

(** [re.compile(r'^[a-zA-Z0-9_.]{2,24}$').match(s)] as a boolean.  Without
    [re.MULTILINE] the anchor [$] matches at the very end of the string and
    also just before a newline that ends the string. *)
Definition USERNAME_PATTERN_match (s : string) : bool :=
  class_run_2_24 s ||
  match last_char s with
  | Some c => (code c =? 10) && class_run_2_24 (chop_last s)
  | None => false
  end.

End PyStr.

Import PyStr.
Open Scope pystr_scope.
Open Scope Z_scope.

(** ** The case mapping

    [str.lower()] and [str.upper()] follow the case tables of the Unicode
    version Python was built with.  They are taken as given, together with
    the facts about them the development uses: on text below 128 they fold
    A-Z and a-z and nothing else; lowering is idempotent; a lowered text
    holds no capital A-Z; and lowering a text that neither starts nor ends
    with whitespace gives such a text again (whitespace is not cased, and
    no letter lowers to whitespace). *)

Class Unicode : Type := {
  lower : string -> string;
  upper : string -> string;
  lower_on_ascii : forall s, is_ascii s = true -> lower s = ascii_lower s;
  upper_on_ascii : forall s, is_ascii s = true -> upper s = ascii_upper s;
  lower_twice : forall s, lower (lower s) = lower s;
  lower_no_capital :
    forall s, forall_chars (fun c => negb (is_upper c)) (lower s) = true;
  lower_keeps_ends : forall s, strip s = s -> strip (lower s) = lower s
}.

(** Comparisons of character codes, settled one at a time. *)
Ltac char_cases :=
  unfold ascii_lower_char, ascii_upper_char in *;
  unfold is_handle_char, is_space in *;
  unfold is_upper, is_lower, is_digit in *;
  unfold between, code, char_of in *;
  repeat
    (match goal with
     | |- context [(?a <=? ?b)%Z] => destruct (Z.leb_spec a b)
     | |- context [(?a <? ?b)%Z] => destruct (Z.ltb_spec a b)
     | |- context [(?a =? ?b)%Z] => destruct (Z.eqb_spec a b)
     | H : context [(?a <=? ?b)%Z] |- _ => destruct (Z.leb_spec a b)
     | H : context [(?a <? ?b)%Z] |- _ => destruct (Z.ltb_spec a b)
     | H : context [(?a =? ?b)%Z] |- _ => destruct (Z.eqb_spec a b)
     end;
     cbn [andb orb negb] in *;
     try (exfalso; lia));
  try reflexivity; try discriminate; try lia.

(** A case mapping that works character by character. *)
Section Pointwise.

Variables fold_lower fold_upper : char -> char.

Hypothesis fold_lower_ascii :
  forall c, code c < 128 -> fold_lower c = ascii_lower_char c.
Hypothesis fold_upper_ascii :
  forall c, code c < 128 -> fold_upper c = ascii_upper_char c.
Hypothesis fold_lower_twice : forall c, fold_lower (fold_lower c) = fold_lower c.
Hypothesis fold_lower_no_capital : forall c, is_upper (fold_lower c) = false.
Hypothesis fold_lower_space : forall c, is_space (fold_lower c) = is_space c.

Definition pointwise : Unicode.
Proof.
  refine {| lower := map_str fold_lower; upper := map_str fold_upper |}.
  - induction s as [|c t IH]; [reflexivity|].
    unfold is_ascii, ascii_lower in *. cbn. intros H.
    apply andb_true_iff in H as [Hc Ht]. apply Z.ltb_lt in Hc.
    now rewrite (fold_lower_ascii c Hc), (IH Ht).
  - induction s as [|c t IH]; [reflexivity|].
    unfold is_ascii, ascii_upper in *. cbn. intros H.
    apply andb_true_iff in H as [Hc Ht]. apply Z.ltb_lt in Hc.
    now rewrite (fold_upper_ascii c Hc), (IH Ht).
  - induction s as [|c t IH]; [reflexivity|].
    cbn. now rewrite fold_lower_twice, IH.
  - induction s as [|c t IH]; [reflexivity|].
    cbn. now rewrite fold_lower_no_capital, IH.
  - intros s Hs.
    assert (L : forall x, lstrip_by is_space (map_str fold_lower x)
                          = map_str fold_lower (lstrip_by is_space x)).
    { induction x as [|c t IH]; [reflexivity|].
      cbn. rewrite fold_lower_space. now destruct (is_space c). }
    assert (R : forall x, rstrip_by is_space (map_str fold_lower x)
                          = map_str fold_lower (rstrip_by is_space x)).
    { induction x as [|c t IH]; [reflexivity|].
      cbn. rewrite IH, fold_lower_space.
      destruct (rstrip_by is_space t); cbn; [destruct (is_space c)|];
        reflexivity. }
    unfold strip in *. now rewrite L, R, Hs.
Defined.

End Pointwise.

(** The mapping that folds A-Z and a-z and leaves every other character
    alone. *)
Definition ascii_fold : Unicode.
Proof.
  refine (pointwise ascii_lower_char ascii_upper_char _ _ _ _ _);
    intros c; try reflexivity; char_cases.
Defined.

(** A mapping that also lowers the Kelvin sign U+212A to [k] and the
    Cyrillic capitals U+0410-U+042F to U+0430-U+044F, as [str.lower()]
    does. *)
Definition sample_lower_char (c : char) : char :=
  if is_upper c then (c + 32)%N
  else if code c =? 8490 then char_of 107
  else if between 1040 1071 c then (c + 32)%N
  else c.

Definition sample_fold : Unicode.
Proof.
  refine (pointwise sample_lower_char ascii_upper_char _ _ _ _ _);
    intros c; try reflexivity; unfold sample_lower_char in *; char_cases.
Defined.

(** ** The result model *)

Inductive UsernameStatus : Type :=
  | AVAILABLE
  | TAKEN
  | UNAVAILABLE
  | ERROR.

Definition UsernameStatus_eqb (a b : UsernameStatus) : bool :=
  match a, b with
  | AVAILABLE, AVAILABLE | TAKEN, TAKEN
  | UNAVAILABLE, UNAVAILABLE | ERROR, ERROR => true
  | _, _ => false
  end.

Record CheckResult : Type := mkCheckResult {
  username : string;
  status : UsernameStatus;
  message : option string
}.

(** ** The input normaliser *)

(** [TikTokChecker.validate_username]. *)
Definition validate_username (username : string) : bool :=
  if (username =? "")%str then false
  else
    let clean_username := strip (lstrip_at username) in
    USERNAME_PATTERN_match clean_username.

Section Normaliser.

Context {U : Unicode}.

(** [TikTokChecker.clean_username]. *)
Definition clean_username (username : string) : string :=
  lower (strip (lstrip_at username)).

(** A handle as the pattern wants it, already in lower case. *)
Definition valid_lowercase_handle (s : string) : Prop :=
  class_run_2_24 s = true /\ lower s = s.

End Normaliser.

(** ** The response classifier *)

(** A JSON token in double quotes, as it appears in the page source. *)
Definition quoted (s : string) : string := dq ++ s ++ dq.

(** The marker tables of [_analyze_response], in source order. *)
Definition definite_not_found : list string :=
  [ quoted "statuscode" ++ ":10202";
    quoted "statuscode" ++ ": 10202";
    quoted "status_code" ++ ":10202";
    quoted "status_code" ++ ": 10202";
    quoted "statusmsg" ++ ":" ++ quoted "user not exist";
    quoted "statusmsg" ++ ": " ++ quoted "user not exist";
    quoted "statusmsg" ++ ":" ++ quoted "user doesn't exist";
    quoted "errormsg" ++ ":" ++ quoted "user not exist" ].

Definition uniqueid_patterns (username_lower : string) : list string :=
  [ quoted "uniqueid" ++ ":" ++ quoted username_lower;
    quoted "uniqueid" ++ ": " ++ quoted username_lower;
    quoted "unique_id" ++ ":" ++ quoted username_lower;
    quoted "unique_id" ++ ": " ++ quoted username_lower;
    quoted "uniqueId" ++ ":" ++ quoted username_lower;
    quoted "uniqueId" ++ ": " ++ quoted username_lower ].

Definition profile_indicators : list string :=
  [ quoted "followercount";
    quoted "followingcount";
    quoted "heartcount";
    quoted "videocount";
    quoted "diggcount";
    quoted "follower_count";
    quoted "following_count";
    quoted "heart_count" ].

Definition banned_indicators : list string :=
  [ "this account has been banned";
    "account suspended";
    "this account is suspended";
    "this account was banned";
    "account has been suspended";
    "violates our community guidelines";
    quoted "statuscode" ++ ":10101";
    quoted "status_code" ++ ":10101" ].

Definition text_not_found : list string :=
  [ "couldn't find this account";
    "couldn't find this page";
    "user not found";
    "page not found";
    "this account doesn't exist";
    "user doesn't exist" ].

Section Classifier.

Context {U : Unicode}.

(** [for indicator in table: if indicator.lower() in content_lower: return ...]
    reaches its [return] exactly when some entry matches; every entry of
    one table returns the same record. *)
Definition any_lowered_in (table : list string) (content_lower : string) : bool :=
  existsb (fun indicator => str_in (lower indicator) content_lower) table.

(** [sum(1 for ind in profile_indicators if ind in content_lower)]. *)
Definition profile_score (content_lower : string) : Z :=
  Z.of_nat (List.length
              (filter (fun ind => str_in ind content_lower) profile_indicators)).

Definition msg_free : string := "Юзернейм свободен для регистрации".
Definition msg_taken : string := "Юзернейм уже занят другим пользователем".
Definition msg_banned : string :=
  "Аккаунт забанен (юзернейм может стать доступен позже)".
Definition msg_presumed_taken : string :=
  "Юзернейм предположительно занят (требуется ручная проверка)".
Definition msg_forbidden : string := "Доступ запрещён (возможно rate-limit)".

(** [TikTokChecker._analyze_response]. *)
Definition _analyze_response
    (username : string) (status_code : Z) (content : string) : CheckResult :=
  let content_lower := lower content in
  let username_lower := lower username in
  if status_code =? 404 then
    mkCheckResult username AVAILABLE (Some msg_free)
  else if status_code =? 200 then
    if any_lowered_in definite_not_found content_lower then
      mkCheckResult username AVAILABLE (Some msg_free)
    else if any_lowered_in (uniqueid_patterns username_lower) content_lower then
      mkCheckResult username TAKEN (Some msg_taken)
    else if 2 <=? profile_score content_lower then
      mkCheckResult username TAKEN (Some msg_taken)
    else if any_lowered_in banned_indicators content_lower then
      mkCheckResult username UNAVAILABLE (Some msg_banned)
    else if any_lowered_in text_not_found content_lower then
      mkCheckResult username AVAILABLE (Some msg_free)
    else
      mkCheckResult username TAKEN (Some msg_presumed_taken)
  else if status_code =? 403 then
    mkCheckResult username ERROR (Some msg_forbidden)
  else if 500 <=? status_code then
    mkCheckResult username ERROR
      (Some ("Ошибка сервера TikTok: " ++ str_of_Z status_code))
  else
    mkCheckResult username TAKEN
      (Some ("Неопределённый статус (HTTP " ++ str_of_Z status_code
             ++ ") - предположительно занят")).

(** *** The cascade in the words of the specification

    An ordered list of (predicate, outcome) rules over the body, matched
    without regard to case; the first rule that applies decides, and an
    explicit default closes the list. *)

Record Rule : Type := mkRule {
  applies : string -> bool;
  verdict : UsernameStatus;
  evidence : string
}.

(** A marker occurs in a body, ignoring case. *)
Definition occurs_ci (marker body : string) : bool :=
  str_in (lower marker) (lower body).

Definition some_marker_ci (markers : list string) (body : string) : bool :=
  existsb (fun m => occurs_ci m body) markers.



End Classifier.

Definition first_match
    (rules : list Rule) (default : UsernameStatus * string)
    (handle body : string) : CheckResult :=
  match find (fun r => applies r body) rules with
  | Some r => mkCheckResult handle (verdict r) (Some (evidence r))
  | None => mkCheckResult handle (fst default) (Some (snd default))
  end.

(** ** Exceptions, JSON values and the transport *)

(** The exceptions the checker distinguishes: [aiohttp.ClientError],
    [asyncio.TimeoutError], and any other [Exception].  Each carries its
    [str(e)]. *)
Inductive PyExc : Type :=
  | ClientError (msg : string)
  | TimeoutError (msg : string)
  | OtherError (msg : string).

Definition str_exc (e : PyExc) : string :=
  match e with
  | ClientError msg | TimeoutError msg | OtherError msg => msg
  end.

Definition is_transport_fault (e : PyExc) : bool :=
  match e with
  | ClientError _ | TimeoutError _ => true
  | OtherError _ => false
  end.

(** A Python [float]: not-a-number, an infinity, or the dyadic [m * 2^e]. *)
Inductive pyfloat : Type :=
  | FNan
  | FInf (negative : bool)
  | FFin (m e : Z).

(** What [json.loads] produces. A [dict] is kept as its list of items. *)
#[local] Set Warnings "-register-all".
Inductive json : Type :=
  | JNull
  | JBool (b : bool)
  | JInt (n : Z)
  | JFloat (f : pyfloat)
  | JStr (s : string)
  | JList (items : list json)
  | JDict (items : list (string * json)).

Definition float_eq_int (f : pyfloat) (n : Z) : bool :=
  match f with
  | FFin m e => if 0 <=? e then m * 2 ^ e =? n else m =? n * 2 ^ (- e)
  | _ => false
  end.

(** [v == n] for an integer literal [n]: numbers compare by value, [True]
    and [False] are the integers 1 and 0, anything else is unequal. *)
Definition py_eq_int (v : json) (n : Z) : bool :=
  match v with
  | JInt m => m =? n
  | JFloat f => float_eq_int f n
  | JBool b => (if b then 1 else 0) =? n
  | _ => false
  end.

Fixpoint dict_get (items : list (string * json)) (key : string) (default : json)
  : json :=
  match items with
  | [] => default
  | (k, v) :: rest => if (k =? key)%str then v else dict_get rest key default
  end.

Definition AttributeError (attr : string) : PyExc :=
  OtherError ("object has no attribute '" ++ attr ++ "'").

(** [d.get(key, default)]: only a [dict] has the method. *)
Definition py_get (d : json) (key : string) (default : json) : PyExc + json :=
  match d with
  | JDict items => inr (dict_get items key default)
  | _ => inl (AttributeError "get")
  end.

(** A received HTTP response: the status line and what [await response.json()]
    and [await response.text()] give, each either a value or the exception
    raised while reading or decoding the body. *)
Record Response : Type := mkResponse {
  resp_status : Z;
  resp_json : PyExc + json;
  resp_text : PyExc + string
}.

(** What the checker does to the outside: requests and sleeps
    (in milliseconds). *)
Inductive Event : Type :=
  | GET (url : string)
  | SLEEP (ms : Z).

(** The transport: [session.get(url, allow_redirects=True)] either raises or
    yields a response, and moves the outside world on. *)
Class Transport : Type := {
  World : Type;
  http_get : string -> World -> (PyExc + Response) * World
}.

(** *** Pure code that may raise *)

Definition ebind {A B : Type} (m : PyExc + A) (k : A -> PyExc + B) : PyExc + B :=
  match m with
  | inl e => inl e
  | inr a => k a
  end.

Declare Scope exc_scope.
Delimit Scope exc_scope with exc.
Notation "x <~ m ;; k" := (ebind m (fun x => k))
  (at level 61, m at next level, right associativity) : exc_scope.

Definition msg_api_taken : string := "Юзернейм занят (подтверждено через API)".
Definition msg_api_free : string := "Юзернейм свободен (подтверждено через API)".
Definition msg_api_banned : string := "Аккаунт забанен".

Section ProbeVerdict.

Context {U : Unicode}.

(** [v.lower()]: only a [str] has the method. *)
Definition py_lower (v : json) : PyExc + string :=
  match v with
  | JStr s => inr (lower s)
  | _ => inl (AttributeError "lower")
  end.

(** The body of the inner [try] of [_check_via_api], once the JSON document
    is at hand.  [inr None] stands for falling out of the [if] chain. *)
Definition api_verdict (username : string) (data : json)
  : PyExc + option CheckResult :=
  (inner_default <~ py_get data "status_code" (JInt 0) ;;
   status_code <~ py_get data "statusCode" inner_default ;;
   let after_success_check :=
     if py_eq_int status_code 10202 then
       inr (Some (mkCheckResult username AVAILABLE (Some msg_api_free)))
     else if py_eq_int status_code 10101 then
       inr (Some (mkCheckResult username UNAVAILABLE (Some msg_api_banned)))
     else inr None in
   if py_eq_int status_code 0 then
     user_info <~ py_get data "userInfo" (JDict []) ;;
     user <~ py_get user_info "user" (JDict []) ;;
     unique_id <~ py_get user "uniqueId" (JStr "") ;;
     unique_id_lower <~ py_lower unique_id ;;
     if (unique_id_lower =? lower username)%str then
       inr (Some (mkCheckResult username TAKEN (Some msg_api_taken)))
     else after_success_check
   else after_success_check)%exc.

End ProbeVerdict.

(** The status field a document carries, and the identifier of the profile
    it returns, as [api_verdict] reads them. *)
Definition embedded_status (items : list (string * json)) : json :=
  dict_get items "statusCode" (dict_get items "status_code" (JInt 0)).

Definition profile_unique_id (items : list (string * json)) : option string :=
  match dict_get items "userInfo" (JDict []) with
  | JDict user_info =>
      match dict_get user_info "user" (JDict []) with
      | JDict user =>
          match dict_get user "uniqueId" (JStr "") with
          | JStr unique_id => Some unique_id
          | _ => None
          end
      | _ => None
      end
  | _ => None
  end.

(** *** Effectful code: state passing with exceptions *)

Section Checker.

Context {U : Unicode} {T : Transport}.

(** The state threaded through the checker: the outside world and the
    record of what the checker did to it. *)
Record St : Type := mkSt {
  world : World;
  trace : list Event
}.

Definition M (A : Type) : Type := St -> (PyExc + A) * St.

Definition ret {A : Type} (a : A) : M A := fun s => (inr a, s).

Definition raise {A : Type} (e : PyExc) : M A := fun s => (inl e, s).

Definition bind {A B : Type} (m : M A) (k : A -> M B) : M B :=
  fun s =>
    match m s with
    | (inl e, s') => (inl e, s')
    | (inr a, s') => k a s'
    end.

(** [try: m  except Exception as e: handler(e)]. *)
Definition catch {A : Type} (m : M A) (handler : PyExc -> M A) : M A :=
  fun s =>
    match m s with
    | (inl e, s') => handler e s'
    | (inr a, s') => (inr a, s')
    end.

Definition lift {A : Type} (r : PyExc + A) : M A := fun s => (r, s).

Notation "x <- m ;; k" := (bind m (fun x => k))
  (at level 61, m at next level, right associativity).
Notation "m ;;; k" := (bind m (fun _ => k))
  (at level 61, right associativity).

(** [async with session.get(url, allow_redirects=True) as response]. *)
Definition get (url : string) : M Response :=
  fun s =>
    let (r, w) := http_get url (world s) in
    (r, mkSt w (trace s ++ [GET url])).

(** [await asyncio.sleep(...)], the delay given in milliseconds. *)
Definition sleep (ms : Z) : M unit :=
  fun s => (inr tt, mkSt (world s) (trace s ++ [SLEEP ms])).

(** The reply a request gets in a state, and the states a request and a
    sleep lead to. *)
Definition reply_to (url : string) (s : St) : PyExc + Response :=
  fst (http_get url (world s)).

Definition after_get (url : string) (s : St) : St :=
  mkSt (snd (http_get url (world s))) (trace s ++ [GET url]).

Definition slept (ms : Z) (s : St) : St :=
  mkSt (world s) (trace s ++ [SLEEP ms]).

Definition TIKTOK_USER_URL (username : string) : string :=
  "https://www.tiktok.com/@" ++ username.

Definition api_url (username : string) : string :=
  "https://www.tiktok.com/api/user/detail/?uniqueId=" ++ username ++ "&secUid=".

Definition MAX_RETRIES : Z := 3.
Definition RETRY_DELAY : Z := 2.

(** [TikTokChecker._check_via_api]. *)
Definition _check_via_api (username : string) : M (option CheckResult) :=
  catch
    (response <- get (api_url username) ;;
     if resp_status response =? 200 then
       catch
         (data <- lift (resp_json response) ;;
          lift (api_verdict username data))
         (fun _ => ret None)
     else ret None)
    (fun _ => ret None).

(** The second half of [_perform_check]: fetch the profile page and
    classify it. *)
Definition html_fallback (username : string) : M CheckResult :=
  response <- get (TIKTOK_USER_URL username) ;;
  let status_code := resp_status response in
  content <- lift (resp_text response) ;;
  ret (_analyze_response username status_code content).

(** [TikTokChecker._perform_check]. *)
Definition _perform_check (username : string) : M CheckResult :=
  api_result <- _check_via_api username ;;
  match api_result with
  | Some result => ret result
  | None => html_fallback username
  end.

(** [range(a, b)]. *)
Definition range (a b : Z) : list Z :=
  map (fun k => a + Z.of_nat k) (seq 0 (Z.to_nat (b - a))).

(** [str(last_error)]: [None] before any fault, else the text of the
    fault. *)
Definition str_last_error (last_error : option string) : string :=
  match last_error with
  | None => "None"
  | Some text => text
  end.

Definition msg_timeout : string := "Таймаут запроса".

(** What [last_error] holds after a transport fault: the exception for a
    [ClientError], a fixed text for a timeout. *)
Definition fault_text (e : PyExc) : string :=
  match e with
  | TimeoutError _ => msg_timeout
  | ClientError msg | OtherError msg => msg
  end.

Definition exhausted (username : string) (last_error : option string)
  : CheckResult :=
  mkCheckResult username ERROR
    (Some ("Ошибка после " ++ str_of_Z MAX_RETRIES ++ " попыток: "
           ++ str_last_error last_error)).

(** [if attempt < self.MAX_RETRIES: await asyncio.sleep(self.RETRY_DELAY * attempt)]. *)
Definition backoff (attempt : Z) : M unit :=
  if attempt <? MAX_RETRIES then sleep (1000 * (RETRY_DELAY * attempt))
  else ret tt.

(** The [for attempt in ...] loop of [_check_with_retry] over the attempts
    still to run, and the code after the loop. *)
Fixpoint retry_loop
    (username : string) (attempts : list Z) (last_error : option string)
  : M CheckResult :=
  match attempts with
  | [] => ret (exhausted username last_error)
  | attempt :: rest =>
      fun s =>
        match _perform_check username s with
        | (inr result, s') => (inr result, s')
        | (inl (ClientError e), s') =>
            (backoff attempt ;;; retry_loop username rest (Some e)) s'
        | (inl (TimeoutError _), s') =>
            (backoff attempt ;;; retry_loop username rest (Some msg_timeout)) s'
        | (inl (OtherError e), s') => (inl (OtherError e), s')
        end
  end.

(** [TikTokChecker._check_with_retry]. *)
Definition _check_with_retry (username : string) : M CheckResult :=
  retry_loop username (range 1 (MAX_RETRIES + 1)) None.

Definition msg_bad_format : string :=
  "Неверный формат юзернейма (2-24 символа, буквы, цифры, _ и .)".

(** [TikTokChecker.check_username].  The semaphore only bounds how many
    checks run at once and is not part of this sequential model. *)
Definition check_username (username : string) : M CheckResult :=
  let clean_name := clean_username username in
  if negb (validate_username clean_name) then
    ret (mkCheckResult username UNAVAILABLE (Some msg_bad_format))
  else
    _check_with_retry clean_name.

(** [enumerate(xs)], counting from [i]. *)
Fixpoint enumerate_from (i : Z) (xs : list string) : list (Z * string) :=
  match xs with
  | [] => []
  | x :: rest => (i, x) :: enumerate_from (i + 1) rest
  end.

Definition error_result (username : string) (e : PyExc) : CheckResult :=
  mkCheckResult username ERROR (Some (str_exc e)).

(** The [for i, username in enumerate(usernames)] loop of [check_bulk];
    [total] is [len(usernames)]. *)
Fixpoint bulk_loop
    (total : Z) (items : list (Z * string)) (results : list CheckResult)
  : M (list CheckResult) :=
  match items with
  | [] => ret results
  | (i, username) :: rest =>
      fun s =>
        match check_username username s with
        | (inr result, s') =>
            ((if i <? total - 1 then sleep 500 else ret tt) ;;;
             bulk_loop total rest (results ++ [result])) s'
        | (inl e, s') =>
            bulk_loop total rest (results ++ [error_result username e]) s'
        end
  end.

(** [TikTokChecker.check_bulk]. *)
Definition check_bulk (usernames : list string) : M (list CheckResult) :=
  match usernames with
  | [] => ret []
  | _ =>
      bulk_loop (Z.of_nat (List.length usernames))
                (enumerate_from 0 usernames) []
  end.

(** [r] is what one pass of the bulk loop appends for the input [x]: the
    result of [check_username x], or the ERROR record made from the
    exception it raised. *)
Definition resolved_as (x : string) (r : CheckResult) : Prop :=
  exists s1 s2 : St,
    check_username x s1 = (inr r, s2) \/
    exists e : PyExc, check_username x s1 = (inl e, s2) /\ r = error_result x e.


End Checker.

(** ** Reading a trace *)

Definition is_request (ev : Event) : bool :=
  match ev with
  | GET _ => true
  | SLEEP _ => false
  end.

(** How many requests a stretch of the trace holds, and how long it slept
    (in milliseconds). *)
Definition request_count (evs : list Event) : Z :=
  Z.of_nat (List.length (filter is_request evs)).

Fixpoint sleep_total (evs : list Event) : Z :=
  match evs with
  | [] => 0
  | SLEEP ms :: rest => ms + sleep_total rest
  | GET _ :: rest => sleep_total rest
  end.

(** The events one check of [name] may add to the trace. *)
Definition check_event (name : string) (ev : Event) : Prop :=
  ev = GET (api_url name) \/ ev = GET (TIKTOK_USER_URL name) \/
  ev = SLEEP 2000 \/ ev = SLEEP 4000.

(** The record [check_username] returns for a name of the wrong format. *)
Definition format_error (raw : string) : CheckResult :=
  mkCheckResult raw UNAVAILABLE (Some msg_bad_format).

(** ** The report formatter *)

(** [UsernameStatus.<member>.value]. *)
Definition status_value (st : UsernameStatus) : string :=
  match st with
  | AVAILABLE => "✅ Доступен"
  | TAKEN => "❌ Занят"
  | UNAVAILABLE => "⚠️ Недоступен (забанен/недействителен)"
  | ERROR => "🔴 Ошибка проверки"
  end.

(** [TikTokChecker.format_result]. *)
Definition format_result (result : CheckResult) : string :=
  "@" ++ username result ++ ": " ++ status_value (status result).

(** [r.status == UsernameStatus.<member>]. *)
Definition has_status (st : UsernameStatus) (r : CheckResult) : bool :=
  UsernameStatus_eqb (status r) st.

(** [r.message or default]: [None] and the empty string are both falsy. *)
Definition message_or (default : string) (r : CheckResult) : string :=
  match message r with
  | None => default
  | Some m => if (m =? "")%str then default else m
  end.

Definition heavy_bar : string := repeat_str "═" 40.
Definition light_bar : string := repeat_str "─" 40.

Definition plain_entry (r : CheckResult) : string := "  • @" ++ username r.

Definition annotated_entry (default : string) (r : CheckResult) : string :=
  "  • @" ++ username r ++ " - " ++ message_or default r.

(** One [if group: ...] block of the report. *)
Definition report_section
    (title : string) (entry : CheckResult -> string) (group : list CheckResult)
  : list string :=
  match group with
  | [] => []
  | _ => [light_bar; title; light_bar] ++ map entry group ++ [""]
  end.

Definition len {A : Type} (l : list A) : Z := Z.of_nat (List.length l).

(** [[r for r in results if r.status == st]]. *)
Definition group (st : UsernameStatus) (results : list CheckResult)
  : list CheckResult :=
  filter (has_status st) results.

(** The [lines] list of [format_results_report] for a non-empty input. *)
Definition report_lines (results : list CheckResult) : list string :=
  let available := group AVAILABLE results in
  let taken := group TAKEN results in
  let unavailable := group UNAVAILABLE results in
  let errors := group ERROR results in
  [ heavy_bar;
    "📊 ОТЧЁТ О ПРОВЕРКЕ ЮЗЕРНЕЙМОВ TIKTOK";
    heavy_bar;
    "";
    "📈 Всего проверено: " ++ str_of_Z (len results);
    "✅ Доступных: " ++ str_of_Z (len available);
    "❌ Занятых: " ++ str_of_Z (len taken);
    "⚠️ Недоступных: " ++ str_of_Z (len unavailable);
    "🔴 Ошибок: " ++ str_of_Z (len errors);
    "" ]
  ++ report_section "✅ ДОСТУПНЫЕ ЮЗЕРНЕЙМЫ:" plain_entry available
  ++ report_section "❌ ЗАНЯТЫЕ ЮЗЕРНЕЙМЫ:" plain_entry taken
  ++ report_section "⚠️ НЕДОСТУПНЫЕ ЮЗЕРНЕЙМЫ:"
       (annotated_entry "Забанен/недействителен") unavailable
  ++ report_section "🔴 ОШИБКИ ПРОВЕРКИ:"
       (annotated_entry "Неизвестная ошибка") errors
  ++ [ heavy_bar; "Конец отчёта"; heavy_bar ].

(** [TikTokChecker.format_results_report]. *)
Definition format_results_report (results : list CheckResult) : string :=
  match results with
  | [] => "Нет результатов для отображения."
  | _ => join (chr newline) (report_lines results)
  end.

(** ** A scripted transport

    The outside world as the list of replies still to come: each request
    takes the next one; when the script is exhausted the connection fails. *)

Definition Script : Type := list (PyExc + Response).

Definition connection_refused : PyExc := ClientError "Cannot connect to host".

Definition scripted_get (url : string) (w : Script)
  : (PyExc + Response) * Script :=
  match w with
  | [] => (inl connection_refused, [])
  | reply :: rest => (reply, rest)
  end.

Definition scripted : Transport :=
  {| World := Script; http_get := scripted_get |}.

(** Run a computation against a script, from an empty trace. *)
Definition run {A : Type} (m : @M scripted A) (w : Script)
  : (PyExc + A) * list Event :=
  let (r, s) := m (@mkSt scripted w []) in (r, trace s).

(** A response whose body is not JSON and reads as the given text. *)
Definition html_page (code : Z) (body : string) : Response :=
  mkResponse code (inl (ClientError "Attempt to decode JSON with unexpected mimetype"))
             (inr body).

(** A response whose body is the given JSON document. *)
Definition json_page (code : Z) (doc : json) : Response :=
  mkResponse code (inr doc) (inr "").

(** The state a run starts in: a script and an empty trace. *)
Definition initial (w : Script) : @St scripted := @mkSt scripted w [].

(** A world in which neither endpoint knows the name. *)
Definition two_missing_pages : Script :=
  [inr (html_page 404 ""); inr (html_page 404 "")].

(** ** The HTTP session

    An [aiohttp.ClientSession] is an object shared by reference: the one
    [_get_session] returns is the one the checker keeps, and closing it is
    seen through every reference.  The sessions the checker has made are
    kept in a store, and a reference is an index into it. *)

Definition REQUEST_TIMEOUT : Z := 15.

Definition browser_headers : list (string * string) :=
  [ ("User-Agent",
     "Mozilla/5.0 (Windows NT 10.0; Win64; x64) AppleWebKit/537.36 (KHTML, like Gecko) Chrome/120.0.0.0 Safari/537.36");
    ("Accept",
     "text/html,application/xhtml+xml,application/xml;q=0.9,image/webp,*/*;q=0.8");
    ("Accept-Language", "ru-RU,ru;q=0.9,en-US;q=0.8,en;q=0.7");
    ("Accept-Encoding", "gzip, deflate, br");
    ("Connection", "keep-alive");
    ("Upgrade-Insecure-Requests", "1") ].

Record ClientSession : Type := mkClientSession {
  session_headers : list (string * string);
  session_timeout : Z;
  closed : bool
}.

(** The checker's [_session] attribute, with the store of session objects. *)
Record Checker : Type := mkChecker {
  sessions : list ClientSession;
  _session : option nat
}.

(** [TikTokChecker.__init__]. *)
Definition new_checker : Checker := mkChecker [] None.

(** [session.closed] through a reference. *)
Definition session_closed (c : Checker) (ref : nat) : bool :=
  match nth_error (sessions c) ref with
  | Some session => closed session
  | None => true
  end.

(** [aiohttp.ClientSession(headers=headers, timeout=timeout)]: a new, open
    object at the end of the store. *)
Definition create_session (c : Checker) : nat * Checker :=
  let ref := List.length (sessions c) in
  (ref,
   mkChecker
     (sessions c ++ [mkClientSession browser_headers REQUEST_TIMEOUT false])
     (Some ref)).

(** [TikTokChecker._get_session]. *)
Definition _get_session (c : Checker) : nat * Checker :=
  match _session c with
  | None => create_session c
  | Some ref => if session_closed c ref then create_session c else (ref, c)
  end.

(** [await session.close()] on the object behind a reference. *)
Fixpoint close_at (ref : nat) (store : list ClientSession) : list ClientSession :=
  match store, ref with
  | [], _ => []
  | session :: rest, O =>
      mkClientSession (session_headers session) (session_timeout session) true
      :: rest
  | session :: rest, S k => session :: close_at k rest
  end.

(** [TikTokChecker.close]. *)
Definition close (c : Checker) : Checker :=
  match _session c with
  | Some ref =>
      if negb (session_closed c ref) then
        mkChecker (close_at ref (sessions c)) None
      else c
  | None => c
  end.

(** A history of calls on one checker. *)
Inductive SessionCall : Type :=
  | CallGetSession
  | CallClose.

Definition session_step (c : Checker) (call : SessionCall) : Checker :=
  match call with
  | CallGetSession => snd (_get_session c)
  | CallClose => close c
  end.

Definition after_calls (calls : list SessionCall) : Checker :=
  fold_left session_step calls new_checker.

(** Every open session is the one the checker holds. *)
Definition no_stray_session (c : Checker) : Prop :=
  forall ref : nat, session_closed c ref = false -> _session c = Some ref.

(** ** The bot's reading of its input ([main.py])

    What [handle_document] and [handle_text] compute from the file name,
    the decoded file content and the message text before they call the
    checker.  Talking to Telegram is not part of the model. *)

(** The line boundaries of [str.splitlines]: LF, VT, FF, CR (with CR LF as
    one boundary), the separators 0x1c to 0x1e, U+0085, U+2028 and
    U+2029. *)
Definition is_linebreak (c : char) : bool :=
  between 10 13 c || between 28 30 c
  || (code c =? 133) || (code c =? 8232) || (code c =? 8233).

(** [s.splitlines()], with the line being read in [cur]. *)
Fixpoint splitlines_from (cur : string) (s : string) : list string :=
  match s with
  | EmptyString => if (cur =? "")%str then [] else [cur]
  | String c t =>
      if code c =? 13 then
        match t with
        | EmptyString => [cur]
        | String c' t' =>
            if code c' =? 10 then cur :: splitlines_from "" t'
            else cur :: splitlines_from "" t
        end
      else if is_linebreak c then cur :: splitlines_from "" t
      else splitlines_from (cur ++ chr c) t
  end.

Definition splitlines (s : string) : list string := splitlines_from "" s.

(** The body of the first loop of [handle_document] for one line: the name
    it appends, if any. *)
Definition parse_line (line : string) : option string :=
  let username := strip line in
  if negb (username =? "")%str && negb (startswith "#" username) then
    let clean_name := strip (lstrip_at username) in
    if negb (clean_name =? "")%str
       && (2 <=? Z.of_nat (len_str clean_name))
    then Some clean_name
    else None
  else None.

(** The first loop: [usernames] grows by the names of the lines. *)
Fixpoint collect_usernames (lines : list string) (usernames : list string)
  : list string :=
  match lines with
  | [] => usernames
  | line :: rest =>
      match parse_line line with
      | Some clean_name => collect_usernames rest (usernames ++ [clean_name])
      | None => collect_usernames rest usernames
      end
  end.

Section FileNames.

Context {U : Unicode}.

(** [lower_u not in seen], the set kept as a list. *)
Definition in_seen (lower_u : string) (seen : list string) : bool :=
  existsb (str_eqb lower_u) seen.

(** The second loop: duplicates up to case are dropped, the first of them
    stays. *)
Fixpoint dedupe_loop
    (usernames : list string) (seen : list string)
    (unique_usernames : list string) : list string :=
  match usernames with
  | [] => unique_usernames
  | u :: rest =>
      let lower_u := lower u in
      if negb (in_seen lower_u seen) then
        dedupe_loop rest (lower_u :: seen) (unique_usernames ++ [u])
      else dedupe_loop rest seen unique_usernames
  end.

Definition dedupe (usernames : list string) : list string :=
  dedupe_loop usernames [] [].

(** The names [handle_document] reads out of a file. *)
Definition usernames_of_file (content : string) : list string :=
  dedupe (collect_usernames (splitlines content) []).

Definition MAX_BULK_COUNT : Z := 500.

(** [s.endswith(suffix)]. *)
Fixpoint endswith (suffix s : string) : bool :=
  (s =? suffix)%str ||
  match s with
  | EmptyString => false
  | String _ t => endswith suffix t
  end.

(** What [handle_document] decides to do with an uploaded file. *)
Inductive DocumentPlan : Type :=
  | InvalidFileType
  | FileEmpty
  | FileTooLarge
  | BulkCheck (usernames : list string).

Definition plan_document (file_name : option string) (content : string)
  : DocumentPlan :=
  match file_name with
  | None => InvalidFileType
  | Some name =>
      if (name =? "")%str || negb (endswith ".txt" name) then InvalidFileType
      else
        let usernames := usernames_of_file content in
        match usernames with
        | [] => FileEmpty
        | _ =>
            if MAX_BULK_COUNT <? len usernames then FileTooLarge
            else BulkCheck usernames
        end
  end.

End FileNames.

(** One list is the other with some entries left out, the order kept. *)
Inductive subseq {A : Type} : list A -> list A -> Prop :=
  | subseq_nil : subseq [] []
  | subseq_keep (x : A) (l l' : list A) :
      subseq l l' -> subseq (x :: l) (x :: l')
  | subseq_drop (x : A) (l l' : list A) :
      subseq l l' -> subseq l (x :: l').

(** No character of the string is whitespace. *)
Definition spaceless (s : string) : bool :=
  forall_chars (fun c => negb (is_space c)) s.

(** The characters of a string up to its first whitespace. *)
Fixpoint until_space (s : string) : string :=
  match s with
  | EmptyString => EmptyString
  | String c t => if is_space c then EmptyString else String c (until_space t)
  end.

(** [s.split()[0]]: the first word, or [IndexError] when there is none. *)
Definition first_word (s : string) : PyExc + string :=
  match until_space (lstrip_by is_space s) with
  | EmptyString => inl (OtherError "list index out of range")
  | word => inr word
  end.

(** The name [handle_text] goes on to check for a message text, [None]
    when it returns without checking. *)
Definition username_of_text (message_text : string) : PyExc + option string :=
  let text := strip message_text in
  if startswith "/" text then inr None
  else
    let username := strip (lstrip_at text) in
    if (username =? "")%str then inr None
    else if str_in " " username then
      match first_word username with
      | inl e => inl e
      | inr word => inr (Some word)
      end
    else inr (Some username).

(** * Properties *)

(** ** Sanity checks of the embedding on concrete inputs

    The samples are run with the folding of the letters A-Z alone, which
    every case folding agrees with on ASCII text. *)

Section Samples.

#[local] Existing Instance ascii_fold.

Example clean_plain : clean_username "@TikTok " = "tiktok".
Proof. reflexivity. Qed.

Example clean_many_ats : clean_username "@@@Name.1" = "name.1".
Proof. reflexivity. Qed.

Example validate_short : validate_username "a" = false.
Proof. reflexivity. Qed.

Example validate_longest :
  validate_username "abcdefghijklmnopqrstuvwx" = true /\
  validate_username "abcdefghijklmnopqrstuvwxy" = false.
Proof. split; reflexivity. Qed.

Example pattern_newline_quirk :
  USERNAME_PATTERN_match ("ab" ++ chr newline) = true /\
  USERNAME_PATTERN_match ("ab" ++ chr newline ++ chr newline) = false.
Proof. split; reflexivity. Qed.

Example str_of_Z_examples :
  str_of_Z 0 = "0" /\ str_of_Z 503 = "503" /\ str_of_Z (-7) = "-7".
Proof. repeat split. Qed.

(** Lengths count characters, not bytes; the blanks of Unicode are
    stripped, and its line breaks end a line. *)
Example len_counts_characters : len_str "имя" = 3%nat.
Proof. reflexivity. Qed.

Example strip_no_break_space :
  strip (chr (char_of 160) ++ "abc" ++ chr (char_of 12288)) = "abc".
Proof. reflexivity. Qed.

Example splitlines_line_separator :
  splitlines ("ab" ++ chr (char_of 8232) ++ "cd" ++ chr (char_of 133) ++ "ef")
  = ["ab"; "cd"; "ef"].
Proof. reflexivity. Qed.

Example analyze_404 :
  status (_analyze_response "totally_free_handle" 404 "") = AVAILABLE.
Proof. reflexivity. Qed.

Example analyze_three_counters :
  _analyze_response "popular_acct" 200
    ("{" ++ quoted "followerCount" ++ ":1," ++ quoted "heartCount" ++ ":2,"
         ++ quoted "videoCount" ++ ":3}")
  = mkCheckResult "popular_acct" TAKEN (Some msg_taken).
Proof. reflexivity. Qed.

Example analyze_ambiguous :
  _analyze_response "ambiguous_case" 200 "<html>hello</html>"
  = mkCheckResult "ambiguous_case" TAKEN (Some msg_presumed_taken).
Proof. reflexivity. Qed.

Example analyze_403 :
  status (_analyze_response "rate_limited" 403 "") = ERROR.
Proof. reflexivity. Qed.

Example probe_not_found :
  run (check_username "free_name_9001")
      [inr (json_page 200 (JDict [("statusCode", JInt 10202)]))]
  = (inr (mkCheckResult "free_name_9001" AVAILABLE (Some msg_api_free)),
     [GET (api_url "free_name_9001")]).
Proof. reflexivity. Qed.

End Samples.

(** The same code under a folding that also knows the Cyrillic capitals and
    the Kelvin sign (U+212A), whose lower case is the letter k. *)

Section FoldedSamples.

#[local] Existing Instance sample_fold.

Example lower_kelvin_sign : lower (chr (char_of 8490)) = "k".
Proof. reflexivity. Qed.

Example lower_cyrillic : lower "ЯЯ" = "яя".
Proof. reflexivity. Qed.

(** A page that names the profile with two Kelvin signs is the profile of
    the handle [kk]. *)
Example analyze_kelvin_profile :
  _analyze_response "kk" 200
    (quoted "uniqueId" ++ ":"
       ++ quoted (chr (char_of 8490) ++ chr (char_of 8490)))
  = mkCheckResult "kk" TAKEN (Some msg_taken).
Proof. reflexivity. Qed.

(** The probe reads the same profile the same way. *)
Example probe_kelvin_profile :
  api_verdict "kk"
    (JDict [("userInfo",
             JDict [("user",
                     JDict [("uniqueId",
                             JStr (chr (char_of 8490) ++ chr (char_of 8490)))])])])
  = inr (Some (mkCheckResult "kk" TAKEN (Some msg_api_taken))).
Proof. reflexivity. Qed.

(** Two spellings of one Cyrillic name are one name to the duplicate
    filter. *)
Example dedupe_cyrillic : dedupe ["ЯЯ"; "яя"] = ["ЯЯ"].
Proof. reflexivity. Qed.

End FoldedSamples.

(** ** Facts about the string operations *)

Lemma str_eqb_refl (s : string) : (s =? s)%str = true.
Proof.
  induction s as [|c t IH]; simpl; [reflexivity|].
  now rewrite N.eqb_refl, IH.
Qed.

Lemma str_eqb_eq (a b : string) : (a =? b)%str = true <-> a = b.
Proof.
  split; [|intros ->; apply str_eqb_refl].
  revert b. induction a as [|c t IH]; intros [|c' t']; simpl;
    try discriminate; try (intros _; reflexivity).
  intros H. apply andb_true_iff in H as [Hc Ht].
  apply N.eqb_eq in Hc. now rewrite Hc, (IH t' Ht).
Qed.

Lemma str_eqb_neq (a b : string) : (a =? b)%str = false <-> a <> b.
Proof.
  rewrite <- str_eqb_eq. destruct (a =? b)%str; split; intros H;
    try discriminate; try reflexivity.
  now elim H.
Qed.

Lemma str_eqb_spec (a b : string) : reflect (a = b) (a =? b)%str.
Proof.
  destruct (a =? b)%str eqn:E; constructor.
  - now apply str_eqb_eq.
  - now apply str_eqb_neq.
Qed.

Lemma map_str_append (f : char -> char) (a b : string) :
  map_str f (a ++ b) = map_str f a ++ map_str f b.
Proof. induction a as [|c t IH]; simpl; [reflexivity|]. now rewrite IH. Qed.

Lemma forall_chars_append (p : char -> bool) (a b : string) :
  forall_chars p (a ++ b) = forall_chars p a && forall_chars p b.
Proof.
  induction a as [|c t IH]; simpl; [reflexivity|].
  now rewrite IH, andb_assoc.
Qed.

Lemma forall_chars_impl (p q : char -> bool) (s : string) :
  (forall c, p c = true -> q c = true) ->
  forall_chars p s = true -> forall_chars q s = true.
Proof.
  intros Hpq. induction s as [|c t IH]; simpl; [reflexivity|].
  intros H. apply andb_true_iff in H as [Hc Ht].
  now rewrite (Hpq c Hc), (IH Ht).
Qed.

Lemma lower_upper_char (c : char) :
  ascii_lower_char (ascii_upper_char c) = ascii_lower_char c.
Proof. char_cases. Qed.

Lemma lower_upper (s : string) : ascii_lower (ascii_upper s) = ascii_lower s.
Proof.
  induction s as [|c t IH]; [reflexivity|].
  unfold ascii_lower, ascii_upper in *; simpl.
  now rewrite lower_upper_char, IH.
Qed.

Lemma lower_char_idem (c : char) :
  ascii_lower_char (ascii_lower_char c) = ascii_lower_char c.
Proof. char_cases. Qed.

Lemma lower_idem (s : string) : ascii_lower (ascii_lower s) = ascii_lower s.
Proof.
  induction s as [|c t IH]; [reflexivity|].
  unfold ascii_lower in *; simpl.
  now rewrite lower_char_idem, IH.
Qed.

Lemma handle_char_not_space (c : char) :
  is_handle_char c = true -> is_space c = false.
Proof. intros H. char_cases. Qed.

Lemma handle_char_not_at (c : char) :
  is_handle_char c = true -> (code c =? 64) = false.
Proof. intros H. char_cases. Qed.

Lemma handle_char_ascii (c : char) :
  is_handle_char c = true -> (code c <? 128) = true.
Proof. intros H. char_cases. Qed.

Lemma handle_chars_ascii (s : string) :
  forall_chars is_handle_char s = true -> is_ascii s = true.
Proof. apply forall_chars_impl, handle_char_ascii. Qed.

Lemma upper_char_handle (c : char) :
  is_handle_char c = true -> is_handle_char (ascii_upper_char c) = true.
Proof. intros H. char_cases. Qed.

Lemma upper_handle_chars (s : string) :
  forall_chars is_handle_char s = true ->
  forall_chars is_handle_char (ascii_upper s) = true.
Proof.
  unfold ascii_upper.
  induction s as [|c t IH]; simpl; [reflexivity|].
  intros H. apply andb_true_iff in H as [Hc Ht].
  now rewrite (upper_char_handle c Hc), (IH Ht).
Qed.

(** Stripping leaves a run of handle characters alone, also when one
    trailing blank follows it. *)
Lemma rstrip_handle_chars (s : string) :
  forall_chars is_handle_char s = true ->
  rstrip_by is_space s = s /\ rstrip_by is_space (s ++ " ") = s.
Proof.
  induction s as [|c t IH]; simpl; intros H; [split; reflexivity|].
  apply andb_true_iff in H as [Hc Ht].
  destruct (IH Ht) as [E1 E2]. rewrite E1, E2.
  rewrite (handle_char_not_space c Hc).
  destruct t; split; reflexivity.
Qed.

Lemma lstrip_handle_chars (p : char -> bool) (s : string) :
  (forall c, is_handle_char c = true -> p c = false) ->
  forall_chars is_handle_char s = true ->
  lstrip_by p s = s.
Proof.
  intros Hp. destruct s as [|c t]; simpl; [reflexivity|].
  intros H. apply andb_true_iff in H as [Hc _].
  now rewrite (Hp c Hc).
Qed.

Lemma strip_handle_chars (s : string) :
  forall_chars is_handle_char s = true -> strip (lstrip_at s) = s.
Proof.
  intros H. unfold lstrip_at, strip.
  rewrite (lstrip_handle_chars _ s handle_char_not_at H).
  rewrite (lstrip_handle_chars _ s handle_char_not_space H).
  apply (rstrip_handle_chars s H).
Qed.

Lemma class_run_chars (s : string) :
  class_run_2_24 s = true -> forall_chars is_handle_char s = true.
Proof.
  unfold class_run_2_24. intros H.
  apply andb_true_iff in H as [H _]. now apply andb_true_iff in H as [H _].
Qed.

Lemma strip_at_then_blank (u : string) :
  forall_chars is_handle_char u = true ->
  strip (lstrip_at (" @" ++ u ++ " ")) = "@" ++ u.
Proof.
  intros Hu. unfold strip, lstrip_at. simpl.
  destruct (rstrip_handle_chars u Hu) as [_ E]. rewrite E.
  destruct u; reflexivity.
Qed.

(** ** The input normaliser *)

Section NormaliserProps.

Context {U : Unicode}.

(** On a run of handle characters every case folding is the folding of the
    letters A-Z and a-z. *)
Lemma lower_handle_chars (s : string) :
  forall_chars is_handle_char s = true -> lower s = ascii_lower s.
Proof. intros H. apply lower_on_ascii, handle_chars_ascii, H. Qed.

Lemma upper_handle_run (s : string) :
  forall_chars is_handle_char s = true ->
  upper s = ascii_upper s /\ forall_chars is_handle_char (upper s) = true.
Proof.
  intros H. rewrite (upper_on_ascii s (handle_chars_ascii s H)).
  split; [reflexivity|]. now apply upper_handle_chars.
Qed.

Lemma lower_upper_handle (s : string) :
  forall_chars is_handle_char s = true -> lower (upper s) = lower s.
Proof.
  intros H. destruct (upper_handle_run s H) as [E Hu].
  rewrite (lower_handle_chars _ Hu), E, lower_upper.
  symmetry. now apply lower_handle_chars.
Qed.

Lemma lower_at_handle (s : string) :
  forall_chars is_handle_char s = true -> lower ("@" ++ s) = "@" ++ lower s.
Proof.
  intros H. rewrite (lower_handle_chars s H).
  rewrite lower_on_ascii; [reflexivity|].
  change (is_ascii ("@" ++ s)) with (is_ascii s).
  now apply handle_chars_ascii.
Qed.

Lemma clean_username_handle (s : string) :
  valid_lowercase_handle s -> clean_username s = s.
Proof.
  intros [Hrun Hlow]. unfold clean_username.
  now rewrite (strip_handle_chars s (class_run_chars s Hrun)).
Qed.

(** When the [@] comes first, the same decoration is removed in full. *)
Lemma clean_username_at_first (s : string) :
  valid_lowercase_handle s -> clean_username ("@" ++ upper s ++ " ") = s.
Proof.
  intros [Hrun Hlow].
  pose proof (class_run_chars s Hrun) as Hs.
  destruct (upper_handle_run s Hs) as [Eup Hu].
  unfold clean_username, lstrip_at, strip. simpl.
  assert (E : lstrip_by (fun c => code c =? 64) (upper s ++ " ") = upper s ++ " ").
  { destruct (upper s) as [|c t] eqn:Eu; [reflexivity|].
    simpl in *. apply andb_true_iff in Hu as [Hc _].
    now rewrite (handle_char_not_at c Hc). }
  rewrite E.
  assert (E' : lstrip_by is_space (upper s ++ " ") = upper s ++ " ").
  { destruct (upper s) as [|c t] eqn:Eu.
    - destruct s; [discriminate Hrun|discriminate Eup].
    - simpl in *. apply andb_true_iff in Hu as [Hc _].
      now rewrite (handle_char_not_space c Hc). }
  rewrite E'.
  destruct (rstrip_handle_chars (upper s) Hu) as [_ E'']. rewrite E''.
  now rewrite (lower_upper_handle s Hs).
Qed.

(** C8 (the code departs from the claim).  For every valid lowercase
    handle [s], [clean_username] maps the decorated form
    [" @" + s.upper() + " "] to ["@" + s], while it maps [s] to [s]: the
    leading blank shields the [@] from [lstrip('@')], which runs before
    [strip()], so the two normal forms differ by the [@]. *)
Theorem clean_username_decorated (s : string) :
  valid_lowercase_handle s ->
  clean_username (" @" ++ upper s ++ " ") = "@" ++ s /\ clean_username s = s.
Proof.
  intros Hs. split; [|now apply clean_username_handle].
  destruct Hs as [Hrun Hlow].
  pose proof (class_run_chars s Hrun) as Hs.
  destruct (upper_handle_run s Hs) as [_ Hu].
  unfold clean_username. rewrite (strip_at_then_blank (upper s) Hu).
  rewrite (lower_at_handle _ Hu).
  now rewrite (lower_upper_handle s Hs), Hlow.
Qed.

End NormaliserProps.

Section NormaliserSamples.

#[local] Existing Instance ascii_fold.

Lemma clean_username_decorated_abc :
  valid_lowercase_handle "abc" /\
  clean_username " @ABC " = "@abc" /\ clean_username "abc" = "abc".
Proof.
  split; [split; reflexivity|].
  exact (clean_username_decorated "abc" (conj eq_refl eq_refl)).
Defined.

Lemma clean_username_decorated_differs :
  clean_username (" @" ++ upper "abc" ++ " ") <> clean_username "abc".
Proof. discriminate. Qed.

End NormaliserSamples.

Section EntryProps.

Context {U : Unicode}.

(** A name that [validate_username] turns down after cleaning is answered
    on the spot: no request, no sleep, and the caller's own string in the
    result. *)
Lemma check_username_rejected
    (T : Transport) (raw : string) (s : St) :
  validate_username (clean_username raw) = false ->
  check_username raw s
  = (inr (mkCheckResult raw UNAVAILABLE (Some msg_bad_format)), s).
Proof. intros H. unfold check_username. now rewrite H. Qed.

Lemma check_username_accepted
    (T : Transport) (raw : string) (s : St) :
  validate_username (clean_username raw) = true ->
  check_username raw s = _check_with_retry (clean_username raw) s.
Proof. intros H. unfold check_username. now rewrite H. Qed.

Lemma clean_username_blank_at : clean_username " @abc" = "@abc".
Proof.
  unfold clean_username. now rewrite lower_on_ascii by reflexivity.
Qed.

(** C4 (the code departs from the claim).  For the input [" @abc"] the
    name handed to the retry wrapper is ["@abc"], which still starts with
    [@], and both requests carry it: [lstrip('@')] sees the blank first,
    and [validate_username] strips again before matching, so the check
    lets the name through. *)
Theorem check_username_keeps_at_sign :
  (forall (T : Transport) (s : St),
      check_username " @abc" s = _check_with_retry "@abc" s) /\
  snd (run (check_username " @abc")
           [inr (html_page 404 ""); inr (html_page 404 "")])
  = [GET "https://www.tiktok.com/api/user/detail/?uniqueId=@abc&secUid=";
     GET "https://www.tiktok.com/@@abc"].
Proof.
  assert (E : forall (T : Transport) (s : St),
             check_username " @abc" s = _check_with_retry "@abc" s).
  { intros T s. rewrite check_username_accepted; rewrite clean_username_blank_at;
      reflexivity. }
  split; [exact E|].
  unfold run. rewrite E. reflexivity.
Qed.

(** C7 (the code departs from the claim).  The cleaned form of [" @abc"]
    is ["@abc"], which the handle pattern does not match; all the same
    [check_username] sends two requests and answers AVAILABLE for a page
    that is not found, where the claim wants no request and UNAVAILABLE. *)
Theorem check_username_unmatched_goes_out :
  clean_username " @abc" = "@abc" /\
  USERNAME_PATTERN_match (clean_username " @abc") = false /\
  run (check_username " @abc")
      [inr (html_page 404 ""); inr (html_page 404 "")]
  = (inr (mkCheckResult "@abc" AVAILABLE (Some msg_free)),
     [GET (api_url "@abc"); GET (TIKTOK_USER_URL "@abc")]).
Proof.
  split; [exact clean_username_blank_at|].
  split; [now rewrite clean_username_blank_at|].
  unfold run. rewrite check_username_accepted;
    rewrite clean_username_blank_at; reflexivity.
Qed.

End EntryProps.

(** ** The response classifier *)

(** What "first match wins" means for a rule list. *)
Lemma first_match_wins
    (before : list Rule) (r : Rule) (after : list Rule)
    (default : UsernameStatus * string) (handle body : string) :
  (forall r', In r' before -> applies r' body = false) ->
  applies r body = true ->
  first_match (before ++ r :: after) default handle body
  = mkCheckResult handle (verdict r) (Some (evidence r)).
Proof.
  unfold first_match. induction before as [|r0 rest IH]; simpl; intros Hb Hr.
  - now rewrite Hr.
  - rewrite (Hb r0 (or_introl eq_refl)). apply IH; auto.
Qed.

Lemma first_match_default
    (rules : list Rule) (default : UsernameStatus * string)
    (handle body : string) :
  (forall r, In r rules -> applies r body = false) ->
  first_match rules default handle body
  = mkCheckResult handle (fst default) (Some (snd default)).
Proof.
  unfold first_match. induction rules as [|r0 rest IH]; simpl; intros Hb.
  - reflexivity.
  - rewrite (Hb r0 (or_introl eq_refl)). apply IH; auto.
Qed.



Section ClassifierProps.

Context {U : Unicode}.

Lemma some_marker_ci_lowered (table : list string) (body : string) :
  some_marker_ci table body = any_lowered_in table (lower body).
Proof. reflexivity. Qed.





(** C6.  Off status 200 the classifier goes by the status code alone:
    404 gives AVAILABLE, 403 gives ERROR, 500 and above give ERROR, and any
    other code gives TAKEN; for every code and body there is one result. *)
Theorem analyze_by_status_code (handle : string) (code : Z) (body : string) :
  (exists! r : CheckResult, r = _analyze_response handle code body) /\
  (code = 404 -> status (_analyze_response handle code body) = AVAILABLE) /\
  (code = 403 -> status (_analyze_response handle code body) = ERROR) /\
  (500 <= code -> status (_analyze_response handle code body) = ERROR) /\
  (code <> 200 -> code <> 404 -> code <> 403 -> code < 500 ->
   status (_analyze_response handle code body) = TAKEN).
Proof.
  split; [|repeat split].
  - exists (_analyze_response handle code body). split; [reflexivity|].
    intros r ->. reflexivity.
  - intros ->. reflexivity.
  - intros ->. reflexivity.
  - intros H. unfold _analyze_response.
    destruct (Z.eqb_spec code 404); [lia|].
    destruct (Z.eqb_spec code 200); [lia|].
    destruct (Z.eqb_spec code 403); [reflexivity|].
    destruct (Z.leb_spec 500 code); [reflexivity|lia].
  - intros H200 H404 H403 H500. unfold _analyze_response.
    destruct (Z.eqb_spec code 404); [lia|].
    destruct (Z.eqb_spec code 200); [lia|].
    destruct (Z.eqb_spec code 403); [lia|].
    destruct (Z.leb_spec 500 code); [lia|reflexivity].
Qed.

End ClassifierProps.

Section ClassifierSamples.

#[local] Existing Instance ascii_fold.


Lemma analyze_by_status_code_samples :
  status (_analyze_response "h" 404 "") = AVAILABLE /\
  status (_analyze_response "h" 403 "") = ERROR /\
  status (_analyze_response "h" 503 "") = ERROR /\
  status (_analyze_response "h" 302 "") = TAKEN.
Proof.
  split; [|split; [|split]].
  - apply (proj1 (proj2 (analyze_by_status_code "h" 404 ""))). reflexivity.
  - apply (proj1 (proj2 (proj2 (analyze_by_status_code "h" 403 "")))).
    reflexivity.
  - apply (proj1 (proj2 (proj2 (proj2 (analyze_by_status_code "h" 503 ""))))).
    lia.
  - apply (proj2 (proj2 (proj2 (proj2 (analyze_by_status_code "h" 302 "")))));
      lia.
Defined.

End ClassifierSamples.

(** ** The structured probe *)

(** A value equals at most one integer. *)
Lemma py_eq_int_functional (v : json) (a b : Z) :
  py_eq_int v a = true -> py_eq_int v b = true -> a = b.
Proof.
  destruct v as [| [] | m | [| |m e] | | |];
    cbn [py_eq_int float_eq_int]; try discriminate.
  - intros Ha Hb. apply Z.eqb_eq in Ha, Hb. lia.
  - intros Ha Hb. apply Z.eqb_eq in Ha, Hb. lia.
  - intros Ha Hb. apply Z.eqb_eq in Ha, Hb. lia.
  - destruct (0 <=? e) eqn:He; intros Ha Hb; apply Z.eqb_eq in Ha, Hb.
    + lia.
    + apply Z.leb_gt in He.
      assert (Hp : 0 < 2 ^ (- e)) by (apply Z.pow_pos_nonneg; lia).
      rewrite Ha in Hb. now apply Z.mul_reg_r in Hb; [|lia].
Qed.

Section ProbeProps.

Context {U : Unicode} {T : Transport}.

Lemma api_verdict_some (name : string) (data : json) (r : CheckResult) :
  api_verdict name data = inr (Some r) ->
  username r = name /\
  exists items,
    data = JDict items /\
    (   (status r = AVAILABLE /\ py_eq_int (embedded_status items) 10202 = true)
     \/ (status r = TAKEN /\ py_eq_int (embedded_status items) 0 = true /\
         exists uid, profile_unique_id items = Some uid /\ lower uid = lower name)
     \/ (status r = UNAVAILABLE /\
         py_eq_int (embedded_status items) 10101 = true)).
Proof.
  destruct data as [| | | | | |items]; try discriminate.
  unfold api_verdict, py_get, ebind, profile_unique_id.
  fold (embedded_status items).
  intros H.
  assert (Rest :
    (if py_eq_int (embedded_status items) 10202
     then inr (Some (mkCheckResult name AVAILABLE (Some msg_api_free)))
     else if py_eq_int (embedded_status items) 10101
          then inr (Some (mkCheckResult name UNAVAILABLE (Some msg_api_banned)))
          else inr None) = (inr (Some r) : PyExc + option CheckResult) ->
    username r = name /\
    (   (status r = AVAILABLE /\ py_eq_int (embedded_status items) 10202 = true)
     \/ (status r = UNAVAILABLE /\
         py_eq_int (embedded_status items) 10101 = true))).
  { destruct (py_eq_int (embedded_status items) 10202) eqn:E1.
    - intros [= <-]. auto.
    - destruct (py_eq_int (embedded_status items) 10101) eqn:E2.
      + intros [= <-]. auto.
      + discriminate. }
  destruct (py_eq_int (embedded_status items) 0) eqn:E0.
  - destruct (dict_get items "userInfo" (JDict [])) as [| | | | | |info] eqn:Ei;
      try discriminate.
    destruct (dict_get info "user" (JDict [])) as [| | | | | |user] eqn:Eus;
      try discriminate.
    destruct (dict_get user "uniqueId" (JStr "")) as [| | | |uid| |] eqn:Eid;
      try discriminate.
    simpl in H.
    destruct (lower uid =? lower name)%str eqn:Eu.
    + injection H as <-. split; [reflexivity|].
      exists items. split; [reflexivity|]. right; left.
      split; [reflexivity|]. split; [exact E0|].
      exists uid. rewrite Ei, Eus, Eid.
      split; [reflexivity|]. now apply str_eqb_eq.
    + destruct (Rest H) as [Hn [Hs|Hs]]; (split; [exact Hn|]);
        exists items; (split; [reflexivity|]); tauto.
  - destruct (Rest H) as [Hn [Hs|Hs]]; (split; [exact Hn|]);
      exists items; (split; [reflexivity|]); tauto.
Qed.

Lemma api_verdict_not_found (name : string) (items : list (string * json)) :
  py_eq_int (embedded_status items) 10202 = true ->
  api_verdict name (JDict items)
  = inr (Some (mkCheckResult name AVAILABLE (Some msg_api_free))).
Proof.
  intros H. unfold api_verdict, py_get, ebind. fold (embedded_status items).
  destruct (py_eq_int (embedded_status items) 0) eqn:E0.
  - discriminate (py_eq_int_functional _ _ _ E0 H).
  - now rewrite H.
Qed.

Lemma api_verdict_banned (name : string) (items : list (string * json)) :
  py_eq_int (embedded_status items) 10101 = true ->
  api_verdict name (JDict items)
  = inr (Some (mkCheckResult name UNAVAILABLE (Some msg_api_banned))).
Proof.
  intros H. unfold api_verdict, py_get, ebind. fold (embedded_status items).
  destruct (py_eq_int (embedded_status items) 0) eqn:E0.
  - discriminate (py_eq_int_functional _ _ _ E0 H).
  - destruct (py_eq_int (embedded_status items) 10202) eqn:E1.
    + discriminate (py_eq_int_functional _ _ _ E1 H).
    + now rewrite H.
Qed.

Lemma api_verdict_taken
    (name : string) (items : list (string * json)) (uid : string) :
  py_eq_int (embedded_status items) 0 = true ->
  profile_unique_id items = Some uid ->
  lower uid = lower name ->
  api_verdict name (JDict items)
  = inr (Some (mkCheckResult name TAKEN (Some msg_api_taken))).
Proof.
  intros H0 Hp Hu. unfold api_verdict, py_get, ebind.
  fold (embedded_status items). rewrite H0.
  unfold profile_unique_id in Hp.
  destruct (dict_get items "userInfo" (JDict [])) as [| | | | | |info];
    try discriminate.
  destruct (dict_get info "user" (JDict [])) as [| | | | | |user];
    try discriminate.
  destruct (dict_get user "uniqueId" (JStr "")) as [| | | |u| |];
    try discriminate.
  injection Hp as ->. simpl. rewrite Hu. now rewrite str_eqb_refl.
Qed.

Lemma get_reply (url : string) (s : St) :
  get url s = (reply_to url s, after_get url s).
Proof.
  unfold get, reply_to, after_get. now destruct (http_get url (world s)).
Qed.

(** The probe as one expression: one request, then a verdict read off the
    reply, every exception on the way turned into "no verdict". *)
Lemma check_via_api_unfolded (name : string) (s : St) :
  _check_via_api name s
  = (inr match reply_to (api_url name) s with
         | inl _ => None
         | inr resp =>
             if resp_status resp =? 200 then
               match resp_json resp with
               | inl _ => None
               | inr data =>
                   match api_verdict name data with
                   | inl _ => None
                   | inr verdict => verdict
                   end
               end
             else None
         end,
     after_get (api_url name) s).
Proof.
  unfold _check_via_api, catch, bind. rewrite get_reply.
  destruct (reply_to (api_url name) s) as [e|resp]; [reflexivity|].
  destruct (resp_status resp =? 200); [|reflexivity].
  unfold lift, ret.
  destruct (resp_json resp) as [e|data]; [reflexivity|].
  destruct (api_verdict name data) as [e|verdict]; reflexivity.
Qed.

(** C5.  The probe sends one request and never raises.  A verdict comes
    only from a status-200 reply whose body parses to a JSON object, and
    then it is AVAILABLE for the embedded status 10202, UNAVAILABLE for
    10101, and TAKEN for 0 together with a profile whose uniqueId equals
    the handle up to case; these three also suffice.  Anything else, a
    body that does not parse and a failed request included, gives no
    verdict, and with no verdict [_perform_check] goes on to the profile
    page. *)
Theorem api_probe_outcomes (name : string) (s : St) :
  exists verdict : option CheckResult,
    _check_via_api name s = (inr verdict, after_get (api_url name) s) /\
    (forall r : CheckResult,
        verdict = Some r ->
        username r = name /\
        exists resp items,
          reply_to (api_url name) s = inr resp /\
          resp_status resp = 200 /\
          resp_json resp = inr (JDict items) /\
          (   (status r = AVAILABLE /\
               py_eq_int (embedded_status items) 10202 = true)
           \/ (status r = TAKEN /\
               py_eq_int (embedded_status items) 0 = true /\
               exists uid, profile_unique_id items = Some uid /\
                           lower uid = lower name)
           \/ (status r = UNAVAILABLE /\
               py_eq_int (embedded_status items) 10101 = true))) /\
    (forall resp items,
        reply_to (api_url name) s = inr resp ->
        resp_status resp = 200 ->
        resp_json resp = inr (JDict items) ->
        (py_eq_int (embedded_status items) 10202 = true ->
         option_map status verdict = Some AVAILABLE) /\
        (py_eq_int (embedded_status items) 10101 = true ->
         option_map status verdict = Some UNAVAILABLE) /\
        (py_eq_int (embedded_status items) 0 = true ->
         (exists uid, profile_unique_id items = Some uid /\
                      lower uid = lower name) ->
         option_map status verdict = Some TAKEN)) /\
    (verdict = None ->
     _perform_check name s = html_fallback name (after_get (api_url name) s)).
Proof.
  eexists. split; [apply check_via_api_unfolded|].
  split; [|split].
  - intros r Hr.
    destruct (reply_to (api_url name) s) as [e|resp]; [discriminate|].
    destruct (Z.eqb_spec (resp_status resp) 200) as [E200|]; [|discriminate].
    destruct (resp_json resp) as [e|data] eqn:Ej; [discriminate|].
    destruct (api_verdict name data) as [e|verdict] eqn:Ev; [discriminate|].
    subst verdict.
    destruct (api_verdict_some name data r Ev) as [Hn [items [-> Hc]]].
    split; [exact Hn|]. exists resp, items.
    split; [reflexivity|]. split; [exact E200|]. split; [exact Ej|exact Hc].
  - intros resp items -> E200 Ej. rewrite E200, Ej. change (200 =? 200) with true.
    cbv iota. split; [|split].
    + intros H. now rewrite (api_verdict_not_found name items H).
    + intros H. now rewrite (api_verdict_banned name items H).
    + intros H [uid [Hp Hu]]. now rewrite (api_verdict_taken name items uid H Hp Hu).
  - intros Hnone. unfold _perform_check, bind.
    rewrite check_via_api_unfolded, Hnone. reflexivity.
Qed.

End ProbeProps.

Section ProbeSamples.

#[local] Existing Instance ascii_fold.

Lemma api_probe_outcomes_free_name :
  let s := @mkSt scripted
             [inr (json_page 200 (JDict [("statusCode", JInt 10202)]))] [] in
  exists verdict : option CheckResult,
    _check_via_api "free_name_9001" s
    = (inr verdict, after_get (api_url "free_name_9001") s) /\
    option_map status verdict = Some AVAILABLE.
Proof.
  intros s.
  destruct (api_probe_outcomes (T := scripted) "free_name_9001" s)
    as [verdict [Hrun [_ [Hif _]]]].
  exists verdict. split; [exact Hrun|].
  apply (Hif (json_page 200 (JDict [("statusCode", JInt 10202)]))
             [("statusCode", JInt 10202)]); reflexivity.
Defined.

End ProbeSamples.

(** ** The retry wrapper *)

Section RetryProps.

Context {U : Unicode} {T : Transport}.

Lemma attempts_are_1_2_3 : range 1 (MAX_RETRIES + 1) = [1; 2; 3].
Proof. reflexivity. Qed.

Lemma backoff_runs (attempt : Z) (s : St) :
  backoff attempt s
  = (inr tt,
     if attempt <? MAX_RETRIES then slept (1000 * (RETRY_DELAY * attempt)) s
     else s).
Proof. unfold backoff. now destruct (attempt <? MAX_RETRIES). Qed.

(** One turn of the loop: a result ends it, a transport fault is noted and
    the loop goes on after the backoff, any other exception leaves the
    loop as it is. *)
Lemma retry_loop_step
    (name : string) (attempt : Z) (rest : list Z)
    (last_error : option string) (s : St) :
  retry_loop name (attempt :: rest) last_error s
  = match _perform_check name s with
    | (inr result, s1) => (inr result, s1)
    | (inl e, s1) =>
        if is_transport_fault e then
          retry_loop name rest (Some (fault_text e))
            (if attempt <? MAX_RETRIES
             then slept (1000 * (RETRY_DELAY * attempt)) s1 else s1)
        else (inl e, s1)
    end.
Proof.
  cbn [retry_loop].
  destruct (_perform_check name s) as [[[m|m|m]|r] s1]; cbn [is_transport_fault];
    try reflexivity; unfold bind; rewrite backoff_runs; reflexivity.
Qed.

Lemma retry_loop_no_fault_escapes
    (name : string) (attempts : list Z) (last_error : option string)
    (s s' : St) (e : PyExc) :
  retry_loop name attempts last_error s = (inl e, s') ->
  is_transport_fault e = false.
Proof.
  revert last_error s.
  induction attempts as [|attempt rest IH]; intros last_error s.
  - discriminate.
  - rewrite retry_loop_step.
    destruct (_perform_check name s) as [[e1|r] s1]; [|discriminate].
    destruct (is_transport_fault e1) eqn:E1.
    + apply IH.
    + intros [= <- <-]. exact E1.
Qed.

(** C2.  The wrapper makes its first attempt at once, and each of its
    three attempts ends in one of three ways.  A result, whatever its
    status, is returned as it is with no further attempt.  An exception
    that is not a transport fault is passed on as it is, with no further
    attempt and no sleep.  After a transport fault on attempt [k] the
    wrapper sleeps [RETRY_DELAY * k] seconds (2, then 4) and tries again,
    three attempts in all; when the third attempt faults too it returns,
    with no further sleep, an ERROR result that names the three attempts
    and the last fault.  No transport fault ever leaves the wrapper. *)
Theorem retry_policy (name : string) (s : St) :
  (forall r s1,
      _perform_check name s = (inr r, s1) ->
      _check_with_retry name s = (inr r, s1)) /\
  (forall e s1,
      _perform_check name s = (inl e, s1) ->
      is_transport_fault e = false ->
      _check_with_retry name s = (inl e, s1)) /\
  (forall e1 s1,
      _perform_check name s = (inl e1, s1) ->
      is_transport_fault e1 = true ->
      (forall r s2,
          _perform_check name (slept (1000 * (RETRY_DELAY * 1)) s1) = (inr r, s2) ->
          _check_with_retry name s = (inr r, s2)) /\
      (forall e s2,
          _perform_check name (slept (1000 * (RETRY_DELAY * 1)) s1) = (inl e, s2) ->
          is_transport_fault e = false ->
          _check_with_retry name s = (inl e, s2)) /\
      (forall e2 s2,
          _perform_check name (slept (1000 * (RETRY_DELAY * 1)) s1) = (inl e2, s2) ->
          is_transport_fault e2 = true ->
          (forall r s3,
              _perform_check name (slept (1000 * (RETRY_DELAY * 2)) s2)
              = (inr r, s3) ->
              _check_with_retry name s = (inr r, s3)) /\
          (forall e s3,
              _perform_check name (slept (1000 * (RETRY_DELAY * 2)) s2)
              = (inl e, s3) ->
              is_transport_fault e = false ->
              _check_with_retry name s = (inl e, s3)) /\
          (forall e3 s3,
              _perform_check name (slept (1000 * (RETRY_DELAY * 2)) s2)
              = (inl e3, s3) ->
              is_transport_fault e3 = true ->
              _check_with_retry name s
              = (inr (mkCheckResult name ERROR
                        (Some ("Ошибка после 3 попыток: " ++ fault_text e3))),
                 s3)))) /\
  1000 * (RETRY_DELAY * 1) = 2000 /\
  1000 * (RETRY_DELAY * 2) = 4000 /\
  (forall e s',
      _check_with_retry name s = (inl e, s') ->
      is_transport_fault e = false).
Proof.
  unfold _check_with_retry. rewrite attempts_are_1_2_3.
  split; [|split; [|split; [|split; [reflexivity|split; [reflexivity|]]]]].
  - intros r s1 H. now rewrite retry_loop_step, H.
  - intros e s1 H He. now rewrite retry_loop_step, H, He.
  - intros e1 s1 H1 F1. rewrite retry_loop_step, H1, F1.
    change (1 <? MAX_RETRIES) with true. cbv iota.
    split; [|split].
    + intros r s2 H2. now rewrite retry_loop_step, H2.
    + intros e s2 H2 F2. now rewrite retry_loop_step, H2, F2.
    + intros e2 s2 H2 F2. rewrite retry_loop_step, H2, F2.
      change (2 <? MAX_RETRIES) with true. cbv iota.
      split; [|split].
      * intros r s3 H3. now rewrite retry_loop_step, H3.
      * intros e s3 H3 F3. now rewrite retry_loop_step, H3, F3.
      * intros e3 s3 H3 F3. rewrite retry_loop_step, H3, F3.
        reflexivity.
  - intros e s'. apply retry_loop_no_fault_escapes.
Qed.

End RetryProps.

Section RetrySamples.

#[local] Existing Instance ascii_fold.

Lemma retry_policy_flaky :
  _check_with_retry "flaky" (@mkSt scripted [] [])
  = (inr (mkCheckResult "flaky" ERROR
            (Some "Ошибка после 3 попыток: Cannot connect to host")),
     @mkSt scripted []
       [GET (api_url "flaky"); GET (TIKTOK_USER_URL "flaky"); SLEEP 2000;
        GET (api_url "flaky"); GET (TIKTOK_USER_URL "flaky"); SLEEP 4000;
        GET (api_url "flaky"); GET (TIKTOK_USER_URL "flaky")]).
Proof.
  destruct (retry_policy (T := scripted) "flaky" (@mkSt scripted [] []))
    as [_ [_ [H _]]].
  destruct (H connection_refused _ eq_refl eq_refl) as [_ [_ H2]].
  destruct (H2 connection_refused _ eq_refl eq_refl) as [_ [_ H3]].
  exact (H3 connection_refused _ eq_refl eq_refl).
Defined.

(** A received 403 is classified as ERROR and returned after the single
    attempt: two requests, no sleep. *)
Example forbidden_is_not_retried :
  run (_check_with_retry "rate_limited")
      [inr (html_page 200 ""); inr (html_page 403 "")]
  = (inr (mkCheckResult "rate_limited" ERROR (Some msg_forbidden)),
     [GET (api_url "rate_limited"); GET (TIKTOK_USER_URL "rate_limited")]).
Proof. reflexivity. Qed.

(** A timeout is retried like a connection error and reported by its
    fixed text. *)
Example timeouts_are_retried :
  run (_check_with_retry "slow")
      [inr (html_page 500 ""); inl (TimeoutError "");
       inr (html_page 500 ""); inl (TimeoutError "");
       inr (html_page 500 ""); inl (TimeoutError "")]
  = (inr (mkCheckResult "slow" ERROR
            (Some "Ошибка после 3 попыток: Таймаут запроса")),
     [GET (api_url "slow"); GET (TIKTOK_USER_URL "slow"); SLEEP 2000;
      GET (api_url "slow"); GET (TIKTOK_USER_URL "slow"); SLEEP 4000;
      GET (api_url "slow"); GET (TIKTOK_USER_URL "slow")]).
Proof. reflexivity. Qed.

(** An exception that is not a transport fault ends the wrapper on the
    attempt that meets it, here the second: the reply to the second page
    request cannot be decoded. *)
Example other_exception_on_second_attempt :
  run (_check_with_retry "odd")
      [inr (html_page 500 ""); inl (ClientError "reset");
       inr (html_page 500 "");
       inr (mkResponse 200 (inl (OtherError "bad json"))
                           (inl (OtherError "bad text")))]
  = (inl (OtherError "bad text"),
     [GET (api_url "odd"); GET (TIKTOK_USER_URL "odd"); SLEEP 2000;
      GET (api_url "odd"); GET (TIKTOK_USER_URL "odd")]).
Proof. reflexivity. Qed.

End RetrySamples.

(** ** Whose name a result carries *)

Section NameProps.

Context {U : Unicode} {T : Transport}.

Lemma analyze_response_username (name : string) (code : Z) (body : string) :
  username (_analyze_response name code body) = name.
Proof.
  unfold _analyze_response.
  repeat match goal with
         | |- context [if ?b then _ else _] => destruct b
         end; reflexivity.
Qed.

Lemma check_via_api_username
    (name : string) (s s' : St) (r : CheckResult) :
  _check_via_api name s = (inr (Some r), s') -> username r = name.
Proof.
  rewrite check_via_api_unfolded.
  destruct (reply_to (api_url name) s) as [e|resp]; [discriminate|].
  destruct (resp_status resp =? 200); [|discriminate].
  destruct (resp_json resp) as [e|data]; [discriminate|].
  destruct (api_verdict name data) as [e|verdict] eqn:Ev; [discriminate|].
  intros [= -> _]. apply (api_verdict_some name data r Ev).
Qed.

Lemma html_fallback_username
    (name : string) (s s' : St) (r : CheckResult) :
  html_fallback name s = (inr r, s') -> username r = name.
Proof.
  unfold html_fallback, bind. rewrite get_reply.
  destruct (reply_to (TIKTOK_USER_URL name) s) as [e|resp]; [discriminate|].
  unfold lift, ret. destruct (resp_text resp) as [e|content]; [discriminate|].
  intros [= <- _]. apply analyze_response_username.
Qed.

Lemma perform_check_username
    (name : string) (s s' : St) (r : CheckResult) :
  _perform_check name s = (inr r, s') -> username r = name.
Proof.
  unfold _perform_check, bind.
  destruct (_check_via_api name s) as [[e|[r0|]] s1] eqn:Ea.
  - discriminate.
  - unfold ret. intros [= <- _]. exact (check_via_api_username name s s1 r0 Ea).
  - apply html_fallback_username.
Qed.

Lemma retry_loop_username
    (name : string) (attempts : list Z) (last_error : option string)
    (s s' : St) (r : CheckResult) :
  retry_loop name attempts last_error s = (inr r, s') -> username r = name.
Proof.
  revert last_error s.
  induction attempts as [|attempt rest IH]; intros last_error s.
  - unfold retry_loop, ret. now intros [= <- _].
  - rewrite retry_loop_step.
    destruct (_perform_check name s) as [[e|r0] s1] eqn:Ep.
    + destruct (is_transport_fault e); [apply IH|discriminate].
    + intros [= <- _]. exact (perform_check_username name s s1 r0 Ep).
Qed.

(** C9, as amended.  A result of [check_username] carries the caller's
    own string when the input is turned down for its format; when the
    input is checked over the network it carries the cleaned form. *)
Theorem check_username_result_name
    (raw : string) (s s' : St) (r : CheckResult) :
  check_username raw s = (inr r, s') ->
  username r
  = if validate_username (clean_username raw) then clean_username raw else raw.
Proof.
  unfold check_username.
  destruct (validate_username (clean_username raw)); cbn [negb].
  - apply retry_loop_username.
  - unfold ret. now intros [= <- _].
Qed.

(** The input ["ABC"] is checked under the name ["abc"]. *)
Lemma check_username_shouted :
  check_username "ABC" (initial two_missing_pages)
  = (inr (mkCheckResult "abc" AVAILABLE (Some msg_free)),
     @mkSt scripted [] [GET (api_url "abc"); GET (TIKTOK_USER_URL "abc")]).
Proof.
  assert (E : clean_username "ABC" = "abc").
  { unfold clean_username. now rewrite lower_on_ascii by reflexivity. }
  rewrite check_username_accepted; rewrite E; reflexivity.
Qed.

End NameProps.

Section NameSamples.

#[local] Existing Instance ascii_fold.

Lemma check_username_result_name_upper :
  check_username "ABC" (initial two_missing_pages)
  = (inr (mkCheckResult "abc" AVAILABLE (Some msg_free)),
     @mkSt scripted [] [GET (api_url "abc"); GET (TIKTOK_USER_URL "abc")])
  /\ username (mkCheckResult "abc" AVAILABLE (Some msg_free)) = "abc".
Proof.
  split; [reflexivity|].
  exact (check_username_result_name (T := scripted) "ABC"
           (initial two_missing_pages) _ _ eq_refl).
Defined.

End NameSamples.

(** C9 as stated fails, whatever the case folding: checked over the
    network, the input ["ABC"] comes back under the name ["abc"]. *)
Lemma check_username_result_name_not_raw :
  ~ (exists U : Unicode,
       forall (T : Transport) (raw : string) (s s' : St) (r : CheckResult),
         check_username raw s = (inr r, s') -> username r = raw).
Proof.
  intros [U H].
  specialize (H scripted "ABC" (initial two_missing_pages) _ _
                check_username_shouted).
  discriminate H.
Qed.

(** ** The bulk loop *)

Section BulkProps.

Context {U : Unicode} {T : Transport}.

Lemma enumerate_from_names (i : Z) (xs : list string) :
  map snd (enumerate_from i xs) = xs.
Proof.
  revert i. induction xs as [|x rest IH]; intros i; simpl; [reflexivity|].
  now rewrite IH.
Qed.

(** The loop never raises and appends one record per item, in order. *)
Lemma bulk_loop_appends
    (total : Z) (items : list (Z * string)) (acc : list CheckResult) (s : St) :
  exists (rs : list CheckResult) (s' : St),
    bulk_loop total items acc s = (inr (acc ++ rs)%list, s') /\
    Forall2 resolved_as (map snd items) rs.
Proof.
  revert acc s.
  induction items as [|[i x] rest IH]; intros acc s.
  - exists [], s. split; [|constructor].
    cbn [bulk_loop]. unfold ret. now rewrite app_nil_r.
  - cbn [bulk_loop].
    destruct (check_username x s) as [[e|r] s1] eqn:Ec.
    + destruct (IH (acc ++ [error_result x e])%list s1) as [rs [s' [Hrun Hall]]].
      exists (error_result x e :: rs), s'. split.
      * rewrite Hrun. now rewrite <- app_assoc.
      * constructor; [|exact Hall].
        exists s, s1. right. exists e. auto.
    + unfold bind.
      assert (Hpace : exists s1', (if i <? total - 1 then sleep 500 else ret tt) s1
                                  = (inr tt, s1')).
      { destruct (i <? total - 1); eexists; reflexivity. }
      destruct Hpace as [s1' ->].
      destruct (IH (acc ++ [r])%list s1') as [rs [s' [Hrun Hall]]].
      exists (r :: rs), s'. split.
      * rewrite Hrun. now rewrite <- app_assoc.
      * constructor; [|exact Hall].
        exists s, s1. left. exact Ec.
Qed.





End BulkProps.

Section BulkSamples.

#[local] Existing Instance ascii_fold.

(** A batch in which one resolution raises an unexpected exception: the
    exception becomes that item's ERROR record and the next item is still
    checked. *)
Example bulk_survives_exception :
  run (check_bulk ["first"; "a"; "Last"])
      [inr (html_page 500 ""); inl (OtherError "boom");
       inr (html_page 500 ""); inr (html_page 404 "")]
  = (inr [ mkCheckResult "first" ERROR (Some "boom");
           mkCheckResult "a" UNAVAILABLE (Some msg_bad_format);
           mkCheckResult "last" AVAILABLE (Some msg_free) ],
     [GET (api_url "first"); GET (TIKTOK_USER_URL "first");
      SLEEP 500;
      GET (api_url "last"); GET (TIKTOK_USER_URL "last")]).
Proof. reflexivity. Qed.

End BulkSamples.

(** ** The report *)

Lemma has_status_iff (st : UsernameStatus) (r : CheckResult) :
  has_status st r = true <-> status r = st.
Proof.
  unfold has_status. destruct (status r), st; simpl; split;
    congruence.
Qed.

Lemma in_group (st : UsernameStatus) (results : list CheckResult)
    (r : CheckResult) :
  In r (group st results) <-> In r results /\ status r = st.
Proof.
  unfold group. rewrite filter_In. now rewrite has_status_iff.
Qed.

Lemma groups_permutation (results : list CheckResult) :
  Permutation results
    (group AVAILABLE results ++ group TAKEN results
     ++ group UNAVAILABLE results ++ group ERROR results).
Proof.
  unfold group, has_status.
  induction results as [|r rest IH]; [constructor|].
  cbn [filter]. destruct (status r); cbn [UsernameStatus_eqb].
  - cbn [app]. now apply perm_skip.
  - now apply Permutation_cons_app.
  - rewrite app_assoc. apply Permutation_cons_app. now rewrite <- app_assoc.
  - rewrite !app_assoc. apply Permutation_cons_app.
    now rewrite <- !app_assoc.
Qed.

Lemma groups_count (results : list CheckResult) :
  len (group AVAILABLE results) + len (group TAKEN results)
  + len (group UNAVAILABLE results) + len (group ERROR results)
  = len results.
Proof.
  unfold len.
  rewrite (Permutation_length (groups_permutation results)).
  rewrite !length_app. lia.
Qed.

Lemma one_group_only (results : list CheckResult) (r : CheckResult) :
  In r results -> exists! st : UsernameStatus, In r (group st results).
Proof.
  intros Hr. exists (status r). split.
  - apply in_group. auto.
  - intros st Hst. apply in_group in Hst. exact (proj2 Hst).
Qed.

(** C10.  The four groups of [format_results_report] split the input:
    taken together they are a rearrangement of it, and a result lies in
    the group of a status exactly when it is in the input with that
    status, hence in one group only.  For a non-empty input the report is
    the header, the four sections in the order AVAILABLE, TAKEN,
    UNAVAILABLE, ERROR, and the closing lines.  The header gives the total,
    which is the length of the input, followed by the four group sizes,
    and these add up to the total.  The section of a status is left out
    when its group is empty; otherwise it is the heading of the status
    between two rules, one line for each result of the group, in input
    order, and a blank line.  So every result is printed in the section of
    its status and in no other.  For the empty input the report is the
    fixed no-results line. *)
Theorem report_groups_partition (results : list CheckResult) :
  let available := group AVAILABLE results in
  let taken := group TAKEN results in
  let unavailable := group UNAVAILABLE results in
  let errors := group ERROR results in
  Permutation results (available ++ taken ++ unavailable ++ errors) /\
  (forall (r : CheckResult) (st : UsernameStatus),
      In r (group st results) <-> In r results /\ status r = st) /\
  (forall r : CheckResult,
      In r results -> exists! st : UsernameStatus, In r (group st results)) /\
  len available + len taken + len unavailable + len errors = len results /\
  (results <> [] ->
   format_results_report results = join (chr newline) (report_lines results) /\
   report_lines results
   = ([ heavy_bar;
        "📊 ОТЧЁТ О ПРОВЕРКЕ ЮЗЕРНЕЙМОВ TIKTOK";
        heavy_bar;
        "";
        ("📈 Всего проверено: " ++ str_of_Z (len results))%str;
        ("✅ Доступных: " ++ str_of_Z (len available))%str;
        ("❌ Занятых: " ++ str_of_Z (len taken))%str;
        ("⚠️ Недоступных: " ++ str_of_Z (len unavailable))%str;
        ("🔴 Ошибок: " ++ str_of_Z (len errors))%str;
        "" ]
      ++ match available with
         | [] => []
         | _ :: _ =>
             [light_bar; "✅ ДОСТУПНЫЕ ЮЗЕРНЕЙМЫ:"; light_bar]
             ++ map plain_entry available ++ [""]
         end
      ++ match taken with
         | [] => []
         | _ :: _ =>
             [light_bar; "❌ ЗАНЯТЫЕ ЮЗЕРНЕЙМЫ:"; light_bar]
             ++ map plain_entry taken ++ [""]
         end
      ++ match unavailable with
         | [] => []
         | _ :: _ =>
             [light_bar; "⚠️ НЕДОСТУПНЫЕ ЮЗЕРНЕЙМЫ:"; light_bar]
             ++ map (annotated_entry "Забанен/недействителен") unavailable
             ++ [""]
         end
      ++ match errors with
         | [] => []
         | _ :: _ =>
             [light_bar; "🔴 ОШИБКИ ПРОВЕРКИ:"; light_bar]
             ++ map (annotated_entry "Неизвестная ошибка") errors ++ [""]
         end
      ++ [ heavy_bar; "Конец отчёта"; heavy_bar ])%list) /\
  format_results_report [] = "Нет результатов для отображения.".
Proof.
  intros available taken unavailable errors.
  split; [apply groups_permutation|].
  split; [intros r st; apply in_group|].
  split; [intros r; apply one_group_only|].
  split; [apply groups_count|].
  split; [|reflexivity].
  intros Hne. split.
  - destruct results; [contradiction|reflexivity].
  - reflexivity.
Qed.

Lemma report_groups_partition_pair :
  let results := [ mkCheckResult "a" AVAILABLE None;
                   mkCheckResult "b" ERROR (Some "") ] in
  results <> [] /\
  format_results_report results = join (chr newline) (report_lines results).
Proof.
  intros results.
  assert (Hne : results <> []) by discriminate.
  split; [exact Hne|].
  exact (proj1 (proj1 (proj2 (proj2 (proj2 (proj2
                  (report_groups_partition results))))) Hne)).
Defined.

Example report_of_pair :
  report_lines [ mkCheckResult "a" AVAILABLE None;
                 mkCheckResult "b" ERROR (Some "") ]
  = [ heavy_bar; "📊 ОТЧЁТ О ПРОВЕРКЕ ЮЗЕРНЕЙМОВ TIKTOK"; heavy_bar; "";
      "📈 Всего проверено: 2"; "✅ Доступных: 1"; "❌ Занятых: 0";
      "⚠️ Недоступных: 0"; "🔴 Ошибок: 1"; "";
      light_bar; "✅ ДОСТУПНЫЕ ЮЗЕРНЕЙМЫ:"; light_bar; "  • @a"; "";
      light_bar; "🔴 ОШИБКИ ПРОВЕРКИ:"; light_bar;
      "  • @b - Неизвестная ошибка"; "";
      heavy_bar; "Конец отчёта"; heavy_bar ].
Proof. reflexivity. Qed.

Example format_result_taken :
  format_result (mkCheckResult "tiktok" TAKEN None) = "@tiktok: ❌ Занят".
Proof. reflexivity. Qed.

(** * Further properties of the checker *)

(** ** More on the string operations *)

Lemma lower_char_handle (c : char) :
  is_handle_char (ascii_lower_char c) = is_handle_char c.
Proof. char_cases. Qed.

Lemma lower_char_fixed (c : char) :
  is_upper c = false -> ascii_lower_char c = c.
Proof. unfold ascii_lower_char. now intros ->. Qed.

(** What is left of a left strip does not start with a stripped character,
    and a right strip keeps the first character of such a string. *)
Lemma lstrip_head (p : char -> bool) (s : string) (c : char) (t : string) :
  lstrip_by p s = String c t -> p c = false.
Proof.
  induction s as [|a r IH]; simpl; [discriminate|].
  destruct (p a) eqn:Ea; [exact IH|].
  now intros [= <- _].
Qed.

Lemma rstrip_idem (p : char -> bool) (s : string) :
  rstrip_by p (rstrip_by p s) = rstrip_by p s.
Proof.
  induction s as [|c t IH]; simpl; [reflexivity|].
  destruct (rstrip_by p t) as [|b t'] eqn:Et.
  - destruct (p c) eqn:Ec; simpl; [reflexivity|now rewrite Ec].
  - cbn [rstrip_by] in *. now rewrite IH.
Qed.

Lemma lstrip_rstrip_fixed (p : char -> bool) (s : string) :
  lstrip_by p s = s -> lstrip_by p (rstrip_by p s) = rstrip_by p s.
Proof.
  destruct s as [|c t]; [reflexivity|].
  intros H. pose proof (lstrip_head p _ c t H) as Hc.
  cbn [rstrip_by]. destruct (rstrip_by p t); rewrite ?Hc; simpl; now rewrite Hc.
Qed.

Lemma lstrip_idem (p : char -> bool) (s : string) :
  lstrip_by p (lstrip_by p s) = lstrip_by p s.
Proof.
  induction s as [|c t IH]; simpl; [reflexivity|].
  destruct (p c) eqn:Ec; [exact IH|]. simpl. now rewrite Ec.
Qed.

Lemma strip_idem (s : string) : strip (strip s) = strip s.
Proof.
  unfold strip.
  rewrite (lstrip_rstrip_fixed is_space _ (lstrip_idem is_space s)).
  apply rstrip_idem.
Qed.

Lemma rstrip_last (p : char -> bool) (s : string) (c : char) :
  last_char (rstrip_by p s) = Some c -> p c = false.
Proof.
  induction s as [|a t IH]; simpl; [discriminate|].
  destruct (rstrip_by p t) as [|b t'] eqn:Et.
  - destruct (p a) eqn:Ea; simpl; [discriminate|].
    now intros [= <-].
  - exact IH.
Qed.

(** Stripping keeps what holds of every character. *)
Lemma forall_chars_lstrip (q p : char -> bool) (s : string) :
  forall_chars q s = true -> forall_chars q (lstrip_by p s) = true.
Proof.
  induction s as [|c t IH]; simpl; [reflexivity|].
  intros H. destruct (p c); [|exact H].
  apply andb_true_iff in H as [_ H]. now apply IH.
Qed.

Lemma forall_chars_rstrip (q p : char -> bool) (s : string) :
  forall_chars q s = true -> forall_chars q (rstrip_by p s) = true.
Proof.
  induction s as [|c t IH]; simpl; [reflexivity|].
  intros H. apply andb_true_iff in H as [Hc Ht].
  specialize (IH Ht).
  destruct (rstrip_by p t) as [|b t'].
  - destruct (p c); simpl; [reflexivity|now rewrite Hc].
  - cbn [forall_chars] in *. now rewrite Hc, IH.
Qed.

Lemma forall_chars_strip (q : char -> bool) (s : string) :
  forall_chars q s = true -> forall_chars q (strip s) = true.
Proof.
  intros H. unfold strip. now apply forall_chars_rstrip, forall_chars_lstrip.
Qed.

Lemma map_str_length (f : char -> char) (s : string) :
  len_str (map_str f s) = len_str s.
Proof. induction s; simpl; congruence. Qed.

Lemma ascii_lower_handle_chars (s : string) :
  forall_chars is_handle_char (ascii_lower s) = forall_chars is_handle_char s.
Proof.
  unfold ascii_lower. induction s as [|c t IH]; simpl; [reflexivity|].
  now rewrite lower_char_handle, IH.
Qed.

Lemma class_run_ascii_lower (s : string) :
  class_run_2_24 (ascii_lower s) = class_run_2_24 s.
Proof.
  unfold class_run_2_24. rewrite ascii_lower_handle_chars.
  unfold ascii_lower. now rewrite map_str_length.
Qed.

(** A string without the capitals A-Z is its own lower case, as far as
    these letters go. *)
Lemma ascii_lower_fixed (s : string) :
  forall_chars (fun c => negb (is_upper c)) s = true -> ascii_lower s = s.
Proof.
  unfold ascii_lower. induction s as [|c t IH]; simpl; [reflexivity|].
  intros H. apply andb_true_iff in H as [Hc Ht].
  apply negb_true_iff in Hc. now rewrite (lower_char_fixed c Hc), (IH Ht).
Qed.

(** ** More on the input normaliser *)

(** After [strip()] the pattern's [$] has no newline to stop before, so the
    match is a plain run of 2 to 24 class characters. *)
Lemma pattern_match_stripped (s : string) :
  USERNAME_PATTERN_match (strip s) = class_run_2_24 (strip s).
Proof.
  unfold USERNAME_PATTERN_match.
  destruct (last_char (strip s)) as [c|] eqn:El; [|apply orb_false_r].
  apply rstrip_last in El.
  destruct (Z.eqb_spec (code c) 10) as [E|]; [|apply orb_false_r].
  exfalso. revert El E. clear. intros El E. char_cases.
Qed.

Lemma validate_username_run (u : string) :
  validate_username u
  = negb (u =? "")%str && class_run_2_24 (strip (lstrip_at u)).
Proof.
  unfold validate_username. rewrite pattern_match_stripped.
  now destruct (u =? "")%str.
Qed.

(** X1.  [validate_username] accepts a string exactly when it is not empty
    and what remains after dropping the leading [@] signs and the
    whitespace at both ends is a run of 2 to 24 letters, digits,
    underscores and periods; the newline that [$] would tolerate never
    gets through, since [strip()] has removed it. *)
Theorem validate_username_exact (u : string) :
  validate_username u = true <->
  u <> "" /\ class_run_2_24 (strip (lstrip_at u)) = true.
Proof.
  rewrite validate_username_run, andb_true_iff, negb_true_iff.
  split; intros [Hne Hrun]; (split; [|exact Hrun]).
  - intros ->. discriminate Hne.
  - now apply str_eqb_neq.
Qed.

(** The blanks of Unicode are blanks to the validator too: a handle between
    two no-break spaces is accepted. *)
Example validate_no_break_space :
  validate_username (chr (char_of 160) ++ "abc" ++ chr (char_of 160)) = true.
Proof. reflexivity. Qed.

Lemma class_run_nonempty (s : string) : class_run_2_24 s = true -> s <> "".
Proof. intros H ->. discriminate H. Qed.

Section MoreNormaliserProps.

Context {U : Unicode}.

Lemma class_run_lower (s : string) :
  class_run_2_24 s = true -> class_run_2_24 (lower s) = true.
Proof.
  intros H. rewrite (lower_handle_chars s (class_run_chars s H)).
  now rewrite class_run_ascii_lower.
Qed.

(** X2.  Whatever the input, the cleaned name is in lower case and has no
    whitespace at either end. *)
Theorem clean_username_lower_stripped (u : string) :
  lower (clean_username u) = clean_username u /\
  strip (clean_username u) = clean_username u.
Proof.
  unfold clean_username. split.
  - apply lower_twice.
  - apply lower_keeps_ends, strip_idem.
Qed.

(** X3.  When [check_username] lets a name through, that name without its
    leading [@] signs and blanks is a run of 2 to 24 class characters in
    lower case. *)
Theorem accepted_name_core (raw : string) :
  validate_username (clean_username raw) = true ->
  valid_lowercase_handle (strip (lstrip_at (clean_username raw))).
Proof.
  intros H. rewrite validate_username_run in H.
  apply andb_true_iff in H as [_ H].
  split; [exact H|].
  rewrite (lower_handle_chars _ (class_run_chars _ H)).
  apply ascii_lower_fixed, forall_chars_strip, forall_chars_lstrip.
  unfold clean_username. apply lower_no_capital.
Qed.

(** X4.  A bare handle, 2 to 24 class characters in any case, is always
    accepted, and it is checked under its lower-case form. *)
Theorem plain_handle_checked_lowercase
    (T : Transport) (raw : string) (s : St) :
  class_run_2_24 raw = true ->
  clean_username raw = lower raw /\
  validate_username (clean_username raw) = true /\
  check_username raw s = _check_with_retry (lower raw) s.
Proof.
  intros H.
  assert (E : clean_username raw = lower raw).
  { unfold clean_username.
    now rewrite (strip_handle_chars raw (class_run_chars raw H)). }
  pose proof (class_run_lower raw H) as Hl.
  assert (V : validate_username (clean_username raw) = true).
  { rewrite E, validate_username_run. apply andb_true_iff. split.
    - now apply negb_true_iff, str_eqb_neq, class_run_nonempty.
    - now rewrite (strip_handle_chars _ (class_run_chars _ Hl)). }
  split; [exact E|]. split; [exact V|].
  rewrite (check_username_accepted T raw s V). now rewrite E.
Qed.

(** X5.  Any number of [@] signs in front of a string changes neither its
    cleaned form nor whether it is valid. *)
Theorem leading_at_signs_ignored (k : nat) (s : string) :
  clean_username (repeat_str "@" k ++ s) = clean_username s /\
  validate_username (repeat_str "@" k ++ s) = validate_username s.
Proof.
  assert (L : lstrip_at (repeat_str "@" k ++ s) = lstrip_at s).
  { induction k as [|k IH]; [reflexivity|exact IH]. }
  split.
  - unfold clean_username. now rewrite L.
  - unfold validate_username. rewrite L.
    destruct k as [|k]; [reflexivity|].
    destruct s as [|c t]; [|reflexivity].
    cbn [repeat_str]. simpl (("@" ++ _ ++ "") =? "")%str.
    clear. induction k; reflexivity.
Qed.

End MoreNormaliserProps.

Section MoreNormaliserSamples.

#[local] Existing Instance ascii_fold.

Lemma accepted_name_core_mixed :
  validate_username (clean_username "@Some.Name_1 ") = true /\
  valid_lowercase_handle (strip (lstrip_at (clean_username "@Some.Name_1 "))).
Proof.
  split; [reflexivity|].
  exact (accepted_name_core "@Some.Name_1 " eq_refl).
Defined.

Lemma plain_handle_checked_lowercase_tiktok :
  class_run_2_24 "TikTok" = true /\
  check_username "TikTok" (initial []) = _check_with_retry "tiktok" (initial []).
Proof.
  split; [reflexivity|].
  exact (proj2 (proj2 (plain_handle_checked_lowercase
                         scripted "TikTok" (initial []) eq_refl))).
Defined.

End MoreNormaliserSamples.

(** ** More on the response classifier *)

Section MoreClassifierProps.

Context {U : Unicode}.

(** X6.  The classifier says AVAILABLE only on a 404, or on a 200 whose
    body holds one of the not-found markers; it says UNAVAILABLE only on a
    200 whose body holds one of the banned markers.  Without such evidence
    the answer is TAKEN or ERROR. *)
Theorem free_or_banned_needs_evidence
    (name : string) (code : Z) (body : string) :
  (status (_analyze_response name code body) = AVAILABLE ->
   code = 404 \/
   (code = 200 /\
    (some_marker_ci definite_not_found body = true \/
     some_marker_ci text_not_found body = true))) /\
  (status (_analyze_response name code body) = UNAVAILABLE ->
   code = 200 /\ some_marker_ci banned_indicators body = true).
Proof.
  unfold _analyze_response. rewrite !some_marker_ci_lowered.
  destruct (Z.eqb_spec code 404) as [->|N404]; [split; [auto|discriminate]|].
  destruct (Z.eqb_spec code 200) as [->|N200].
  - destruct (any_lowered_in definite_not_found (lower body));
      [split; [auto|discriminate]|].
    destruct (any_lowered_in (uniqueid_patterns (lower name)) (lower body));
      [split; discriminate|].
    destruct (2 <=? profile_score (lower body)); [split; discriminate|].
    destruct (any_lowered_in banned_indicators (lower body));
      [split; [discriminate|auto]|].
    destruct (any_lowered_in text_not_found (lower body));
      [split; [auto|discriminate]|].
    split; discriminate.
  - destruct (code =? 403); [split; discriminate|].
    destruct (500 <=? code); split; discriminate.
Qed.

(** X7.  The classifier says ERROR exactly for the status code 403 and for
    the codes from 500 up, whatever the body. *)
Theorem error_iff_forbidden_or_server
    (name : string) (code : Z) (body : string) :
  status (_analyze_response name code body) = ERROR <->
  code = 403 \/ 500 <= code.
Proof.
  unfold _analyze_response.
  destruct (Z.eqb_spec code 404) as [->|N404]; [split; [discriminate|lia]|].
  destruct (Z.eqb_spec code 200) as [->|N200].
  - split; [|lia].
    repeat match goal with
           | |- context [if ?b then _ else _] => destruct b
           end; discriminate.
  - destruct (Z.eqb_spec code 403) as [->|N403]; [split; auto|].
    destruct (Z.leb_spec 500 code); split; auto; try discriminate; lia.
Qed.

(** X8.  Only the lower-case form of the handle enters the decision: two
    handles that agree up to case get the same status and message for the
    same response. *)
Theorem analyze_ignores_handle_case
    (name name' : string) (code : Z) (body : string) :
  lower name = lower name' ->
  status (_analyze_response name code body)
  = status (_analyze_response name' code body) /\
  message (_analyze_response name code body)
  = message (_analyze_response name' code body).
Proof.
  intros E. unfold _analyze_response. cbv zeta. rewrite E.
  repeat match goal with
         | |- context [if ?b then _ else _] => destruct b
         end; split; reflexivity.
Qed.

End MoreClassifierProps.

Section MoreClassifierSamples.

#[local] Existing Instance ascii_fold.

Lemma free_or_banned_needs_evidence_banned :
  status (_analyze_response "gone" 200 "This account has been banned.")
  = UNAVAILABLE /\
  some_marker_ci banned_indicators "This account has been banned." = true.
Proof.
  split; [reflexivity|].
  exact (proj2 (proj2 (free_or_banned_needs_evidence
                         "gone" 200 "This account has been banned.")
                  eq_refl)).
Defined.

Lemma analyze_ignores_handle_case_sample :
  lower "Some_One" = lower "some_one" /\
  status (_analyze_response "Some_One" 200
            (quoted "uniqueId" ++ ":" ++ quoted "some_one"))
  = status (_analyze_response "some_one" 200
              (quoted "uniqueId" ++ ":" ++ quoted "some_one")).
Proof.
  split; [reflexivity|].
  exact (proj1 (analyze_ignores_handle_case "Some_One" "some_one" 200
                  (quoted "uniqueId" ++ ":" ++ quoted "some_one") eq_refl)).
Defined.

End MoreClassifierSamples.

(** ** What a check does to the outside *)

Section OutsideProps.

Context {U : Unicode} {T : Transport}.

Lemma request_count_app (a b : list Event) :
  request_count (a ++ b) = request_count a + request_count b.
Proof.
  unfold request_count. rewrite filter_app, length_app. lia.
Qed.

Lemma sleep_total_app (a b : list Event) :
  sleep_total (a ++ b) = sleep_total a + sleep_total b.
Proof.
  induction a as [|[url|ms] rest IH]; simpl; lia.
Qed.

Lemma html_fallback_state (name : string) (s s' : St) (out : PyExc + CheckResult) :
  html_fallback name s = (out, s') ->
  s' = after_get (TIKTOK_USER_URL name) s.
Proof.
  unfold html_fallback, bind. rewrite get_reply.
  destruct (reply_to (TIKTOK_USER_URL name) s) as [e|resp].
  - now intros [= _ <-].
  - unfold lift, ret. destruct (resp_text resp); now intros [= _ <-].
Qed.

(** X9.  One attempt sends the API request first and the profile-page
    request second, the second only when the probe gave no verdict; it
    sends nothing else and never sleeps.  With a verdict from the probe the
    attempt cannot raise. *)
Theorem perform_check_requests
    (name : string) (s s' : St) (out : PyExc + CheckResult) :
  _perform_check name s = (out, s') ->
  (exists r : CheckResult,
      _check_via_api name s = (inr (Some r), s') /\
      out = inr r /\
      trace s' = (trace s ++ [GET (api_url name)])%list) \/
  (_check_via_api name s = (inr None, after_get (api_url name) s) /\
   trace s'
   = (trace s ++ [GET (api_url name); GET (TIKTOK_USER_URL name)])%list).
Proof.
  unfold _perform_check, bind.
  destruct (_check_via_api name s) as [[e|[r|]] s1] eqn:Ea;
    pose proof Ea as Eb; rewrite check_via_api_unfolded in Eb.
  - discriminate.
  - injection Eb as _ <-.
    unfold ret. intros [= <- <-]. left. exists r.
    split; [reflexivity|]. split; reflexivity.
  - injection Eb as _ <-.
    intros H. apply html_fallback_state in H as ->. right.
    split; [reflexivity|].
    cbn [after_get trace]. now rewrite <- app_assoc.
Qed.

Lemma perform_check_events
    (name : string) (s s' : St) (out : PyExc + CheckResult) :
  _perform_check name s = (out, s') ->
  exists evs : list Event,
    trace s' = (trace s ++ evs)%list /\
    Forall (check_event name) evs /\
    request_count evs <= 2 /\ sleep_total evs = 0.
Proof.
  intros H. unfold _perform_check, bind in H.
  rewrite check_via_api_unfolded in H.
  match type of H with
  | match ?v with Some _ => _ | None => _ end _ = _ => destruct v as [r|]
  end.
  - unfold ret in H. injection H as _ <-.
    exists [GET (api_url name)]. split; [reflexivity|].
    split; [|split; [cbv; discriminate|reflexivity]].
    constructor; [left; reflexivity|constructor].
  - apply html_fallback_state in H as ->.
    exists [GET (api_url name); GET (TIKTOK_USER_URL name)].
    split; [cbn [after_get trace]; now rewrite <- app_assoc|].
    split; [|split; [cbv; discriminate|reflexivity]].
    constructor; [left; reflexivity|].
    constructor; [right; left; reflexivity|constructor].
Qed.

Lemma slept_trace (ms : Z) (s : St) :
  trace (slept ms s) = (trace s ++ [SLEEP ms])%list.
Proof. reflexivity. Qed.

Lemma check_with_retry_events
    (name : string) (s s' : St) (out : PyExc + CheckResult) :
  _check_with_retry name s = (out, s') ->
  exists evs : list Event,
    trace s' = (trace s ++ evs)%list /\
    Forall (check_event name) evs /\
    request_count evs <= 6 /\ sleep_total evs <= 6000.
Proof.
  unfold _check_with_retry. rewrite attempts_are_1_2_3.
  rewrite retry_loop_step.
  destruct (_perform_check name s) as [[e1|r1] s1] eqn:P1;
    destruct (perform_check_events name s s1 _ P1) as [A1 [T1 [F1 [R1 S1]]]].
  2:{ intros [= _ <-]. exists A1. repeat split; try assumption; lia. }
  destruct (is_transport_fault e1).
  2:{ intros [= _ <-]. exists A1. repeat split; try assumption; lia. }
  change (1 <? MAX_RETRIES) with true. cbv iota.
  rewrite retry_loop_step.
  destruct (_perform_check name (slept (1000 * (RETRY_DELAY * 1)) s1))
    as [[e2|r2] s2] eqn:P2;
    destruct (perform_check_events name _ s2 _ P2) as [A2 [T2 [F2 [R2 S2]]]];
    rewrite slept_trace, T1 in T2.
  2:{ intros [= _ <-]. exists (A1 ++ [SLEEP 2000] ++ A2)%list.
      split; [now rewrite T2, <- !app_assoc|].
      split; [|rewrite !request_count_app, !sleep_total_app;
               change (request_count [SLEEP 2000]) with 0;
               change (sleep_total [SLEEP 2000]) with 2000; lia].
      apply Forall_app. split; [exact F1|].
      apply Forall_app. split; [|exact F2].
      constructor; [right; right; left; reflexivity|constructor]. }
  assert (F12 : Forall (check_event name) (A1 ++ [SLEEP 2000] ++ A2)).
  { apply Forall_app. split; [exact F1|].
    apply Forall_app. split; [|exact F2].
    constructor; [right; right; left; reflexivity|constructor]. }
  destruct (is_transport_fault e2).
  2:{ intros [= _ <-]. exists (A1 ++ [SLEEP 2000] ++ A2)%list.
      split; [now rewrite T2, <- !app_assoc|].
      split; [exact F12|].
      rewrite !request_count_app, !sleep_total_app.
      change (request_count [SLEEP 2000]) with 0.
      change (sleep_total [SLEEP 2000]) with 2000. lia. }
  change (2 <? MAX_RETRIES) with true. cbv iota.
  rewrite retry_loop_step.
  destruct (_perform_check name (slept (1000 * (RETRY_DELAY * 2)) s2))
    as [[e3|r3] s3] eqn:P3;
    destruct (perform_check_events name _ s3 _ P3) as [A3 [T3 [F3 [R3 S3]]]];
    rewrite slept_trace, T2 in T3.
  all: assert (F123 : Forall (check_event name)
                        ((A1 ++ [SLEEP 2000] ++ A2) ++ [SLEEP 4000] ++ A3));
    [ apply Forall_app; split; [exact F12|];
      apply Forall_app; split; [|exact F3];
      constructor; [right; right; right; reflexivity|constructor] | ].
  all: assert (E : out = out -> s' = s3 ->
                   exists evs : list Event,
                     trace s' = (trace s ++ evs)%list /\
                     Forall (check_event name) evs /\
                     request_count evs <= 6 /\ sleep_total evs <= 6000);
    [ intros _ ->;
      exists ((A1 ++ [SLEEP 2000] ++ A2) ++ [SLEEP 4000] ++ A3)%list;
      split; [now rewrite T3, <- !app_assoc|];
      split; [exact F123|];
      rewrite !request_count_app, !sleep_total_app;
      change (request_count [SLEEP 2000]) with 0;
      change (sleep_total [SLEEP 2000]) with 2000;
      change (request_count [SLEEP 4000]) with 0;
      change (sleep_total [SLEEP 4000]) with 4000; lia | ].
  - destruct (is_transport_fault e3).
    + change (3 <? MAX_RETRIES) with false. cbv iota.
      cbn [retry_loop]. unfold ret. intros [= _ <-]. now apply E.
    + intros [= _ <-]. now apply E.
  - intros [= _ <-]. now apply E.
Qed.

(** X10.  Whatever the network does, one call of [check_username] adds to
    the trace only requests to the two endpoints for the cleaned name and
    sleeps of 2 and 4 seconds: at most six requests and at most six
    seconds of sleep in all. *)
Theorem check_username_budget
    (raw : string) (s s' : St) (out : PyExc + CheckResult) :
  check_username raw s = (out, s') ->
  exists evs : list Event,
    trace s' = (trace s ++ evs)%list /\
    Forall (check_event (clean_username raw)) evs /\
    request_count evs <= 6 /\ sleep_total evs <= 6000.
Proof.
  unfold check_username.
  destruct (validate_username (clean_username raw)); cbn [negb].
  - apply check_with_retry_events.
  - unfold ret. intros [= _ <-]. exists [].
    split; [now rewrite app_nil_r|].
    split; [constructor|]. split; [cbv; discriminate|cbv; discriminate].
Qed.

(** X11.  [check_username] never raises a transport fault, and it raises
    nothing at all for a name of the wrong format: an exception that comes
    out is neither a [ClientError] nor a timeout, and the name had passed
    validation. *)
Theorem check_username_raises_only_other
    (raw : string) (s s' : St) (e : PyExc) :
  check_username raw s = (inl e, s') ->
  is_transport_fault e = false /\
  validate_username (clean_username raw) = true.
Proof.
  unfold check_username.
  destruct (validate_username (clean_username raw)); cbn [negb].
  - intros H. split; [|reflexivity].
    exact (retry_loop_no_fault_escapes _ _ _ _ _ _ H).
  - discriminate.
Qed.

(** X12.  A name whose cleaned form is empty, or is not a run of 2 to 24
    class characters once its leading [@] signs and blanks are set aside,
    is answered without touching the outside: the result is UNAVAILABLE
    with the format message under the caller's own string, and the state,
    its trace included, is unchanged. *)
Theorem invalid_name_answered_locally (raw : string) (s : St) :
  clean_username raw = "" \/
  class_run_2_24 (strip (lstrip_at (clean_username raw))) = false ->
  check_username raw s = (inr (format_error raw), s).
Proof.
  intros H. unfold check_username. rewrite validate_username_run.
  destruct H as [-> | ->]; [reflexivity|].
  now rewrite andb_false_r.
Qed.

End OutsideProps.

Section OutsideSamples.

#[local] Existing Instance ascii_fold.

Lemma perform_check_requests_verdict :
  let s0 := initial [inr (json_page 200 (JDict [("statusCode", JInt 10202)]))] in
  let s1 := @mkSt scripted [] [GET (api_url "free_name_9001")] in
  _perform_check "free_name_9001" s0
  = (inr (mkCheckResult "free_name_9001" AVAILABLE (Some msg_api_free)), s1)
  /\ trace s1 = (trace s0 ++ [GET (api_url "free_name_9001")])%list.
Proof.
  intros s0 s1. split; [reflexivity|].
  destruct (perform_check_requests (U := ascii_fold) (T := scripted) "free_name_9001" s0 s1 _ eq_refl)
    as [[r [_ [_ Ht]]]|[E _]].
  - exact Ht.
  - vm_compute in E. discriminate E.
Defined.

Lemma check_username_budget_flaky :
  check_username "flaky" (initial [])
  = (inr (mkCheckResult "flaky" ERROR
            (Some "Ошибка после 3 попыток: Cannot connect to host")),
     @mkSt scripted []
       [GET (api_url "flaky"); GET (TIKTOK_USER_URL "flaky"); SLEEP 2000;
        GET (api_url "flaky"); GET (TIKTOK_USER_URL "flaky"); SLEEP 4000;
        GET (api_url "flaky"); GET (TIKTOK_USER_URL "flaky")])
  /\ exists evs : list Event,
       [GET (api_url "flaky"); GET (TIKTOK_USER_URL "flaky"); SLEEP 2000;
        GET (api_url "flaky"); GET (TIKTOK_USER_URL "flaky"); SLEEP 4000;
        GET (api_url "flaky"); GET (TIKTOK_USER_URL "flaky")]
       = ([] ++ evs)%list /\
       request_count evs <= 6 /\ sleep_total evs <= 6000.
Proof.
  split; [reflexivity|].
  destruct (check_username_budget (U := ascii_fold) (T := scripted) "flaky" (initial []) _ _ eq_refl)
    as [evs [Ht [_ [Hr Hs]]]].
  exists evs. auto.
Defined.

Lemma check_username_raises_only_other_decode :
  check_username "someone"
    (initial [inr (html_page 500 "");
              inr (mkResponse 200 (inr JNull) (inl (OtherError "bad bytes")))])
  = (inl (OtherError "bad bytes"),
     @mkSt scripted []
       [GET (api_url "someone"); GET (TIKTOK_USER_URL "someone")])
  /\ is_transport_fault (OtherError "bad bytes") = false.
Proof.
  split; [reflexivity|].
  exact (proj1 (check_username_raises_only_other (U := ascii_fold) (T := scripted) "someone"
                  (initial [inr (html_page 500 "");
                            inr (mkResponse 200 (inr JNull)
                                   (inl (OtherError "bad bytes")))])
                  _ _ eq_refl)).
Defined.

Lemma invalid_name_answered_locally_short :
  class_run_2_24 (strip (lstrip_at (clean_username "a"))) = false /\
  check_username "a" (initial []) = (inr (format_error "a"), initial []).
Proof.
  split; [reflexivity|].
  exact (invalid_name_answered_locally (U := ascii_fold) (T := scripted) "a" (initial [])
           (or_intror eq_refl)).
Defined.

End OutsideSamples.

(** ** More on the bulk loop *)

Section BulkNameProps.

Context {U : Unicode} {T : Transport}.

Lemma resolved_as_name (x : string) (r : CheckResult) :
  resolved_as x r ->
  (username r = x \/ username r = clean_username x) /\
  (validate_username (clean_username x) = false -> r = format_error x).
Proof.
  intros [s1 [s2 [H|[e [H ->]]]]]; unfold check_username in H;
    destruct (validate_username (clean_username x)); cbn [negb] in H.
  - split; [right|discriminate].
    exact (retry_loop_username _ _ _ _ _ _ H).
  - unfold ret in H. injection H as <- _. split; [left|]; reflexivity.
  - split; [left; reflexivity|discriminate].
  - discriminate H.
Qed.

Lemma check_bulk_resolved (xs : list string) (s s' : St) (rs : list CheckResult) :
  check_bulk xs s = (inr rs, s') -> Forall2 resolved_as xs rs.
Proof.
  destruct xs as [|x rest].
  - unfold check_bulk, ret. intros [= <- _]. constructor.
  - unfold check_bulk.
    destruct (bulk_loop_appends (Z.of_nat (List.length (x :: rest)))
                (enumerate_from 0 (x :: rest)) [] s) as [rs0 [s0 [Hrun Hall]]].
    rewrite Hrun. intros [= <- _].
    now rewrite enumerate_from_names in Hall.
Qed.

(** X13.  Each record of a batch can be matched to its input: it is named
    either by the input as given or by its cleaned form, and for an input
    of the wrong format it is exactly the format-error record. *)
Theorem check_bulk_names
    (xs : list string) (s s' : St) (rs : list CheckResult) :
  check_bulk xs s = (inr rs, s') ->
  Forall2
    (fun x r =>
       (username r = x \/ username r = clean_username x) /\
       (validate_username (clean_username x) = false -> r = format_error x))
    xs rs.
Proof.
  intros H. apply check_bulk_resolved in H.
  revert H. apply Forall2_impl. exact resolved_as_name.
Qed.

Lemma bulk_loop_all_invalid
    (xs : list string) (i : Z) (acc : list CheckResult) (s : St) :
  Forall (fun x => validate_username (clean_username x) = false) xs ->
  exists s' : St,
    bulk_loop (i + Z.of_nat (List.length xs)) (enumerate_from i xs) acc s
    = (inr (acc ++ map format_error xs)%list, s') /\
    world s' = world s /\
    trace s' = (trace s ++ repeat (SLEEP 500) (List.length xs - 1))%list.
Proof.
  revert i acc s.
  induction xs as [|x rest IH]; intros i acc s Hall.
  - exists s. cbn. unfold ret. now rewrite !app_nil_r.
  - inversion Hall as [|x0 l0 Hx Hrest]; subst.
    cbn [enumerate_from bulk_loop].
    unfold check_username. rewrite Hx. cbn [negb]. unfold ret, bind.
    fold (format_error x).
    replace (i + Z.of_nat (List.length (x :: rest)))
      with ((i + 1) + Z.of_nat (List.length rest))
      by (cbn [List.length]; lia).
    destruct rest as [|y rest'].
    + replace (i <? i + 1 + Z.of_nat (List.length (@nil string)) - 1)
        with false by (symmetry; apply Z.ltb_ge; cbn; lia).
      exists s. cbn. unfold ret. now rewrite !app_nil_r.
    + replace (i <? i + 1 + Z.of_nat (List.length (y :: rest')) - 1)
        with true by (symmetry; apply Z.ltb_lt; cbn [List.length]; lia).
      cbn [sleep].
      destruct (IH (i + 1) (acc ++ [format_error x])%list
                  (mkSt (world s) (trace s ++ [SLEEP 500])) Hrest)
        as [s' [Hrun [Hw Ht]]].
      exists s'. rewrite Hrun. split; [now rewrite <- app_assoc|].
      split; [exact Hw|].
      rewrite Ht. cbn [trace List.length Nat.sub repeat].
      rewrite Nat.sub_0_r, <- app_assoc. reflexivity.
Qed.

(** X14.  A batch made only of names of the wrong format sends no request:
    every record is the format-error record of its input, the outside
    world is untouched, and the trace grows by the pauses of half a second
    between consecutive items, one fewer than there are items. *)
Theorem check_bulk_all_invalid (xs : list string) (s : St) :
  Forall (fun x => validate_username (clean_username x) = false) xs ->
  exists s' : St,
    check_bulk xs s = (inr (map format_error xs), s') /\
    world s' = world s /\
    trace s' = (trace s ++ repeat (SLEEP 500) (List.length xs - 1))%list.
Proof.
  intros Hall. destruct xs as [|x rest].
  - exists s. cbn. unfold ret. now rewrite app_nil_r.
  - unfold check_bulk.
    exact (bulk_loop_all_invalid (x :: rest) 0 [] s Hall).
Qed.

End BulkNameProps.

Section BulkNameSamples.

#[local] Existing Instance ascii_fold.

Lemma check_bulk_names_pair :
  check_bulk ["a"; "ABC"] (initial two_missing_pages)
  = (inr [format_error "a"; mkCheckResult "abc" AVAILABLE (Some msg_free)],
     @mkSt scripted []
       [SLEEP 500; GET (api_url "abc"); GET (TIKTOK_USER_URL "abc")])
  /\ Forall2
       (fun x r =>
          (username r = x \/ username r = clean_username x) /\
          (validate_username (clean_username x) = false -> r = format_error x))
       ["a"; "ABC"]
       [format_error "a"; mkCheckResult "abc" AVAILABLE (Some msg_free)].
Proof.
  split; [reflexivity|].
  exact (check_bulk_names (U := ascii_fold) (T := scripted) ["a"; "ABC"] (initial two_missing_pages)
           _ _ eq_refl).
Defined.

Lemma check_bulk_all_invalid_three :
  Forall (fun x => validate_username (clean_username x) = false)
         ["a"; "has space"; "@"] /\
  exists s' : St,
    check_bulk ["a"; "has space"; "@"] (initial two_missing_pages)
    = (inr (map format_error ["a"; "has space"; "@"]), s') /\
    world s' = two_missing_pages /\
    trace s' = [SLEEP 500; SLEEP 500].
Proof.
  assert (H : Forall (fun x => validate_username (clean_username x) = false)
                     ["a"; "has space"; "@"])
    by (repeat constructor).
  split; [exact H|].
  exact (check_bulk_all_invalid (U := ascii_fold) (T := scripted) ["a"; "has space"; "@"]
           (initial two_missing_pages) H).
Defined.

End BulkNameSamples.

(** ** More on the report *)

Lemma in_report_section
    (title : string) (entry : CheckResult -> string)
    (g : list CheckResult) (r : CheckResult) :
  In r g -> In (entry r) (report_section title entry g).
Proof.
  intros H. unfold report_section. destruct g as [|r0 g']; [destruct H|].
  apply in_or_app. right. apply in_or_app. left. now apply in_map.
Qed.

(** X15.  No result is left out of the report: each one has its own entry
    line, a plain one when it is available or taken, and one annotated
    with its message (or the stock text when it has none) when it is
    unavailable or an error. *)
Theorem report_lists_every_result
    (results : list CheckResult) (r : CheckResult) :
  In r results ->
  In (match status r with
      | AVAILABLE | TAKEN => plain_entry r
      | UNAVAILABLE => annotated_entry "Забанен/недействителен" r
      | ERROR => annotated_entry "Неизвестная ошибка" r
      end)
     (report_lines results).
Proof.
  intros H.
  assert (G : In r (group (status r) results))
    by (apply in_group; split; [exact H|reflexivity]).
  unfold report_lines. cbv zeta.
  apply in_or_app. right.
  destruct (status r).
  - apply in_or_app. left. now apply in_report_section.
  - apply in_or_app. right. apply in_or_app. left.
    now apply in_report_section.
  - apply in_or_app. right. apply in_or_app. right. apply in_or_app. left.
    now apply in_report_section.
  - apply in_or_app. right. apply in_or_app. right. apply in_or_app. right.
    apply in_or_app. left. now apply in_report_section.
Qed.

Lemma report_lists_every_result_error :
  let b := mkCheckResult "b" ERROR (Some "") in
  let results := [mkCheckResult "a" AVAILABLE None; b] in
  In b results /\
  In "  • @b - Неизвестная ошибка" (report_lines results).
Proof.
  intros b results.
  assert (H : In b results) by (right; left; reflexivity).
  split; [exact H|].
  exact (report_lists_every_result results b H).
Defined.

(** The lines a section can hold. *)
Lemma report_section_lines
    (title : string) (entry : CheckResult -> string)
    (g : list CheckResult) (x : string) :
  In x (report_section title entry g) ->
  g <> [] /\
  (x = light_bar \/ x = title \/ x = "" \/ exists r, In r g /\ x = entry r).
Proof.
  unfold report_section. destruct g as [|r0 g']; [intros []|].
  intros H. split; [discriminate|].
  apply in_app_or in H as [H|H].
  - cbn in H. intuition.
  - apply in_app_or in H as [H|H].
    + apply in_map_iff in H as [r [<- Hr]]. right; right; right.
      exists r. auto.
    + cbn in H. intuition.
Qed.

Ltac other_line H :=
  repeat match type of H with
         | _ \/ _ => destruct H as [H|H]
         | exists _, _ => destruct H as [? [_ H]]
         end;
  try (vm_compute in H; discriminate H);
  try (unfold plain_entry, annotated_entry in H; cbn in H; discriminate H).

(** X16.  A section heading is printed exactly when its group is not
    empty: the report shows the heading of the available names if and
    only if some result is available, and likewise for the taken, the
    unavailable and the failed ones. *)
Theorem report_heading_iff_group (results : list CheckResult) :
  (In "✅ ДОСТУПНЫЕ ЮЗЕРНЕЙМЫ:" (report_lines results)
   <-> group AVAILABLE results <> []) /\
  (In "❌ ЗАНЯТЫЕ ЮЗЕРНЕЙМЫ:" (report_lines results)
   <-> group TAKEN results <> []) /\
  (In "⚠️ НЕДОСТУПНЫЕ ЮЗЕРНЕЙМЫ:" (report_lines results)
   <-> group UNAVAILABLE results <> []) /\
  (In "🔴 ОШИБКИ ПРОВЕРКИ:" (report_lines results)
   <-> group ERROR results <> []).
Proof.
  unfold report_lines. cbv zeta.
  repeat split.
  all: try (intros H;
    apply in_app_or in H as [H|H];
      [cbn in H; other_line H; contradiction|];
    apply in_app_or in H as [H|H];
      [apply report_section_lines in H as [Hg H]; try exact Hg; other_line H|];
    apply in_app_or in H as [H|H];
      [apply report_section_lines in H as [Hg H]; try exact Hg; other_line H|];
    apply in_app_or in H as [H|H];
      [apply report_section_lines in H as [Hg H]; try exact Hg; other_line H|];
    apply in_app_or in H as [H|H];
      [apply report_section_lines in H as [Hg H]; try exact Hg; other_line H|];
    cbn in H; other_line H; contradiction).
  all: intros Hg; apply in_or_app; right.
  - apply in_or_app. left. unfold report_section.
    destruct (group AVAILABLE results); [contradiction|].
    right; left; reflexivity.
  - apply in_or_app. right. apply in_or_app. left. unfold report_section.
    destruct (group TAKEN results); [contradiction|].
    right; left; reflexivity.
  - apply in_or_app. right. apply in_or_app. right. apply in_or_app. left.
    unfold report_section.
    destruct (group UNAVAILABLE results); [contradiction|].
    right; left; reflexivity.
  - apply in_or_app. right. apply in_or_app. right. apply in_or_app. right.
    apply in_or_app. left. unfold report_section.
    destruct (group ERROR results); [contradiction|].
    right; left; reflexivity.
Qed.

(** ** The session's life cycle *)

Example session_history :
  let c1 := snd (_get_session new_checker) in
  let c2 := close c1 in
  let c3 := snd (_get_session c2) in
  _session c1 = Some 0%nat /\ _session c2 = None /\ _session c3 = Some 1%nat /\
  session_closed c3 0 = true /\ session_closed c3 1 = false.
Proof. repeat split. Qed.

Lemma session_closed_new (store : list ClientSession) (held : option nat) :
  session_closed
    (mkChecker (store ++ [mkClientSession browser_headers REQUEST_TIMEOUT false])
               held)
    (List.length store) = false.
Proof.
  unfold session_closed. cbn [sessions].
  rewrite nth_error_app2, Nat.sub_diag; [reflexivity|lia].
Qed.

Lemma session_closed_old
    (store extra : list ClientSession) (held held' : option nat) (ref : nat) :
  (ref < List.length store)%nat ->
  session_closed (mkChecker (store ++ extra) held) ref
  = session_closed (mkChecker store held') ref.
Proof.
  intros H. unfold session_closed. cbn [sessions].
  now rewrite nth_error_app1.
Qed.

Lemma session_closed_beyond (c : Checker) (ref : nat) :
  (List.length (sessions c) <= ref)%nat -> session_closed c ref = true.
Proof.
  intros H. unfold session_closed.
  now rewrite (proj2 (nth_error_None (sessions c) ref) H).
Qed.

Lemma close_at_length (ref : nat) (store : list ClientSession) :
  List.length (close_at ref store) = List.length store.
Proof.
  revert ref. induction store as [|o rest IH]; intros [|k]; simpl; auto.
Qed.

Lemma close_at_closed
    (ref ref' : nat) (store : list ClientSession) (held held' : option nat) :
  session_closed (mkChecker (close_at ref store) held) ref'
  = if Nat.eqb ref ref' then true
    else session_closed (mkChecker store held') ref'.
Proof.
  unfold session_closed. cbn [sessions].
  revert ref ref'. induction store as [|o rest IH]; intros [|k] [|k'];
    cbn; try reflexivity.
  - now destruct (Nat.eqb k k').
  - apply IH.
Qed.

(** X17.  [_get_session] hands out an open session and keeps that very
    session; asked again, it hands out the same one and creates nothing. *)
Theorem get_session_reuses (c : Checker) :
  let ref := fst (_get_session c) in
  let c' := snd (_get_session c) in
  _session c' = Some ref /\
  session_closed c' ref = false /\
  _get_session c' = (ref, c').
Proof.
  assert (Hnew : let ref := fst (create_session c) in
                 let c' := snd (create_session c) in
                 _session c' = Some ref /\ session_closed c' ref = false /\
                 _get_session c' = (ref, c')).
  { cbn. split; [reflexivity|]. split; [apply session_closed_new|].
    unfold _get_session. cbn [_session]. now rewrite session_closed_new. }
  assert (Hcase : _get_session c = create_session c \/
                  exists ref, _session c = Some ref /\
                              session_closed c ref = false /\
                              _get_session c = (ref, c)).
  { unfold _get_session. destruct (_session c) as [ref|]; [|now left].
    destruct (session_closed c ref) eqn:Ec; [now left|].
    right. exists ref. auto. }
  destruct Hcase as [->|[ref [Eh [Ec E]]]]; [exact Hnew|].
  rewrite E. cbn. auto.
Qed.

(** X18.  After [close] the checker holds no open session: the session it
    held is closed, closing again changes nothing, and the next
    [_get_session] makes a new session, different from every earlier one.
    Closing a checker that never had a session does nothing. *)
Theorem close_releases (c : Checker) :
  (forall ref, _session c = Some ref -> session_closed (close c) ref = true) /\
  (forall ref, _session (close c) = Some ref ->
               session_closed (close c) ref = true) /\
  close (close c) = close c /\
  fst (_get_session (close c)) = List.length (sessions c) /\
  close new_checker = new_checker.
Proof.
  assert (Hshape :
    close c = c /\ (forall ref, _session c = Some ref ->
                                session_closed c ref = true) \/
    exists ref, _session c = Some ref /\
                close c = mkChecker (close_at ref (sessions c)) None).
  { unfold close. destruct (_session c) as [ref|] eqn:Eh.
    - destruct (session_closed c ref) eqn:Ec; cbn [negb].
      + left. split; [reflexivity|]. now intros ref' [= <-].
      + right. exists ref. auto.
    - left. split; [reflexivity|discriminate]. }
  destruct Hshape as [[E Hc]|[ref [Eh E]]].
  - rewrite !E. split; [exact Hc|]. split; [exact Hc|].
    split; [reflexivity|]. split; [|reflexivity].
    unfold _get_session. destruct (_session c) as [ref|] eqn:Eh; [|reflexivity].
    now rewrite (Hc ref eq_refl).
  - rewrite !E. split; [|split; [discriminate|]].
    + intros ref' Hr. rewrite Eh in Hr. injection Hr as <-.
      rewrite (close_at_closed ref ref _ None None).
      now rewrite Nat.eqb_refl.
    + split; [reflexivity|]. split; [|reflexivity].
      unfold _get_session. cbn. apply close_at_length.
Qed.

Lemma close_releases_held :
  let c := snd (_get_session new_checker) in
  _session c = Some 0%nat /\ session_closed (close c) 0 = true.
Proof.
  intros c. split; [reflexivity|].
  exact (proj1 (close_releases c) 0%nat eq_refl).
Defined.

Lemma get_session_keeps_invariant (c : Checker) :
  no_stray_session c -> no_stray_session (snd (_get_session c)).
Proof.
  intros Inv. unfold _get_session.
  assert (Hnew : (forall ref, _session c = Some ref ->
                              session_closed c ref = true) ->
                 no_stray_session (snd (create_session c))).
  { intros Hheld ref Hopen. cbn in *.
    destruct (Nat.lt_trichotomy ref (List.length (sessions c))) as [Hlt|[->|Hgt]].
    - rewrite (session_closed_old _ _ _ (_session c) ref Hlt) in Hopen.
      replace (mkChecker (sessions c) (_session c)) with c in Hopen
        by now destruct c.
      pose proof (Inv ref Hopen) as Hh.
      rewrite (Hheld ref Hh) in Hopen. discriminate.
    - reflexivity.
    - rewrite session_closed_beyond in Hopen; [discriminate|].
      cbn. rewrite length_app. cbn. lia. }
  destruct (_session c) as [ref|] eqn:Eh.
  - destruct (session_closed c ref) eqn:Ec.
    + apply Hnew. now intros ref' [= <-].
    + exact Inv.
  - apply Hnew. discriminate.
Qed.

Lemma close_keeps_invariant (c : Checker) :
  no_stray_session c -> no_stray_session (close c).
Proof.
  intros Inv. unfold close.
  destruct (_session c) as [ref|] eqn:Eh; [|exact Inv].
  destruct (session_closed c ref) eqn:Ec; cbn [negb]; [exact Inv|].
  intros ref' Hopen.
  rewrite (close_at_closed ref ref' _ None (_session c)) in Hopen.
  destruct (Nat.eqb_spec ref ref') as [->|Hne]; [discriminate|].
  replace (mkChecker (sessions c) (_session c)) with c in Hopen
    by now destruct c.
  pose proof (Inv ref' Hopen) as Hh. rewrite Eh in Hh.
  injection Hh as ->. contradiction.
Qed.

(** X19.  Through any history of [_get_session] and [close] calls on a new
    checker, no session is left open behind: a session that is still open
    is the one the checker holds, so at most one is open at a time. *)
Theorem sessions_never_leak (calls : list SessionCall) :
  no_stray_session (after_calls calls) /\
  forall ref ref' : nat,
    session_closed (after_calls calls) ref = false ->
    session_closed (after_calls calls) ref' = false ->
    ref = ref'.
Proof.
  assert (Inv : no_stray_session (after_calls calls)).
  { unfold after_calls.
    assert (H0 : no_stray_session new_checker).
    { intros ref H. unfold session_closed in H. cbn in H.
      destruct ref; discriminate. }
    revert H0. generalize new_checker.
    induction calls as [|call rest IH]; intros c Hc; [exact Hc|].
    cbn [fold_left]. apply IH. destruct call.
    - now apply get_session_keeps_invariant.
    - now apply close_keeps_invariant. }
  split; [exact Inv|].
  intros ref ref' H H'.
  pose proof (Inv ref H) as E. pose proof (Inv ref' H') as E'.
  congruence.
Qed.

Lemma sessions_never_leak_pair :
  let c := after_calls [CallGetSession; CallClose; CallGetSession] in
  session_closed c 1 = false /\ _session c = Some 1%nat.
Proof.
  intros c.
  assert (H : session_closed c 1 = false) by reflexivity.
  split; [exact H|].
  exact (proj1 (sessions_never_leak
                  [CallGetSession; CallClose; CallGetSession]) 1%nat H).
Defined.

(** ** The names read from an uploaded file *)

Section FileNamesProps.

Context {U : Unicode}.

Lemma in_seen_iff (lower_u : string) (seen : list string) :
  in_seen lower_u seen = true <-> In lower_u seen.
Proof.
  unfold in_seen. rewrite existsb_exists. split.
  - intros [x [Hx E]]. apply str_eqb_eq in E. now subst.
  - intros H. exists lower_u. split; [exact H|apply str_eqb_refl].
Qed.

(** What the second loop has done when it ends, given that [seen] holds
    the lower-case forms of the names kept so far. *)
Lemma dedupe_loop_spec
    (usernames seen unique_usernames : list string) :
  (forall x, In x seen <-> In x (map lower unique_usernames)) ->
  NoDup (map lower unique_usernames) ->
  exists added : list string,
    dedupe_loop usernames seen unique_usernames
    = (unique_usernames ++ added)%list /\
    NoDup (map lower (unique_usernames ++ added)) /\
    subseq added usernames /\
    (forall u, In u usernames ->
               In (lower u) (map lower (unique_usernames ++ added))) /\
    (forall pre u post,
        usernames = (pre ++ u :: post)%list ->
        ~ In (lower u) (map lower pre) ->
        ~ In (lower u) seen ->
        In u added).
Proof.
  revert seen unique_usernames.
  induction usernames as [|u rest IH]; intros seen uniq Hseen Hnd.
  - exists []. rewrite app_nil_r. cbn.
    split; [reflexivity|]. split; [exact Hnd|]. split; [constructor|].
    split; [intros u []|].
    intros [|? ?] ? ? E; discriminate E.
  - cbn [dedupe_loop].
    destruct (in_seen (lower u) seen) eqn:Es; cbn [negb].
    + apply in_seen_iff in Es.
      destruct (IH seen uniq Hseen Hnd) as [added [Hrun [Hn [Hsub [Hcov Hfirst]]]]].
      exists added. split; [exact Hrun|]. split; [exact Hn|].
      split; [now constructor|]. split.
      * intros v [<-|Hv]; [|now apply Hcov].
        rewrite map_app. apply in_or_app. left. now apply Hseen.
      * intros [|p pre] v post E Hpre Hv; cbn in E; injection E as -> ->.
        -- contradiction.
        -- apply (Hfirst pre v post eq_refl); [|exact Hv].
           intros Hin. apply Hpre. now right.
    + assert (Hnew : ~ In (lower u) seen).
      { intros Hin. apply in_seen_iff in Hin. congruence. }
      assert (Hseen' : forall x, In x (lower u :: seen)
                                 <-> In x (map lower (uniq ++ [u]))).
      { intros x. rewrite map_app, in_app_iff, <- Hseen. cbn. tauto. }
      assert (Hnd' : NoDup (map lower (uniq ++ [u]))).
      { rewrite map_app. apply NoDup_app; [exact Hnd|repeat constructor; auto|].
        intros a Ha [<-|[]]. apply Hnew. now apply Hseen. }
      destruct (IH (lower u :: seen) (uniq ++ [u])%list Hseen' Hnd')
        as [added [Hrun [Hn [Hsub [Hcov Hfirst]]]]].
      exists (u :: added).
      replace (uniq ++ u :: added)%list with ((uniq ++ [u]) ++ added)%list
        by now rewrite <- app_assoc.
      split; [exact Hrun|]. split; [exact Hn|].
      split; [now constructor|]. split.
      * intros v [<-|Hv]; [|now apply Hcov].
        rewrite !map_app, !in_app_iff. left. right. now left.
      * intros [|p pre] v post E Hpre Hv; cbn in E; injection E as -> ->.
        -- now left.
        -- right. apply (Hfirst pre v post eq_refl).
           ++ intros Hin. apply Hpre. now right.
           ++ intros [E|Hin]; [|contradiction].
              apply Hpre. left. exact E.
Qed.

Lemma dedupe_spec (usernames : list string) :
  NoDup (map lower (dedupe usernames)) /\
  subseq (dedupe usernames) usernames /\
  (forall u, In u usernames -> In (lower u) (map lower (dedupe usernames))) /\
  (forall pre u post,
      usernames = (pre ++ u :: post)%list ->
      ~ In (lower u) (map lower pre) ->
      In u (dedupe usernames)).
Proof.
  unfold dedupe.
  destruct (dedupe_loop_spec usernames [] [])
    as [added [-> [Hn [Hsub [Hcov Hfirst]]]]].
  - intros x. cbn. tauto.
  - constructor.
  - cbn [app] in *. split; [exact Hn|]. split; [exact Hsub|].
    split; [exact Hcov|].
    intros pre u post E Hpre. apply (Hfirst pre u post E Hpre). intros [].
Qed.

Lemma subseq_in {A : Type} (l l' : list A) (x : A) :
  subseq l l' -> In x l -> In x l'.
Proof.
  induction 1 as [|y l l' _ IH|y l l' _ IH]; intros H.
  - exact H.
  - destruct H as [<-|H]; [now left|right; auto].
  - right. auto.
Qed.

(** X20.  After the duplicate filter no two names are equal up to case,
    and no name is lost but for its duplicates: every name of the input
    has a kept name with the same lower-case form. *)
Theorem dedupe_one_per_case_class (usernames : list string) :
  NoDup (map lower (dedupe usernames)) /\
  forall u, In u usernames ->
            exists v, In v (dedupe usernames) /\ lower v = lower u.
Proof.
  destruct (dedupe_spec usernames) as [Hn [_ [Hcov _]]].
  split; [exact Hn|].
  intros u Hu. apply Hcov in Hu. apply in_map_iff in Hu as [v [E Hv]].
  exists v. auto.
Qed.

(** X21.  The duplicate filter keeps the order of the input and, of names
    equal up to case, the one that comes first: the kept names are the
    input with entries left out, and a name with no earlier match stays. *)
Theorem dedupe_keeps_first_in_order (usernames : list string) :
  subseq (dedupe usernames) usernames /\
  forall pre u post,
    usernames = (pre ++ u :: post)%list ->
    ~ In (lower u) (map lower pre) ->
    In u (dedupe usernames).
Proof.
  destruct (dedupe_spec usernames) as [_ [Hsub [_ Hfirst]]].
  split; [exact Hsub|exact Hfirst].
Qed.

Lemma dedupe_loop_distinct
    (usernames seen unique_usernames : list string) :
  NoDup (map lower usernames) ->
  (forall u, In u usernames -> ~ In (lower u) seen) ->
  dedupe_loop usernames seen unique_usernames
  = (unique_usernames ++ usernames)%list.
Proof.
  revert seen unique_usernames.
  induction usernames as [|u rest IH]; intros seen uniq Hnd Hfresh.
  - cbn. now rewrite app_nil_r.
  - cbn [dedupe_loop].
    destruct (in_seen (lower u) seen) eqn:Es.
    + apply in_seen_iff in Es. exfalso.
      exact (Hfresh u (or_introl eq_refl) Es).
    + cbn [negb]. cbn [map] in Hnd. inversion Hnd as [|x l Hx Hrest]; subst.
      rewrite IH; [now rewrite <- app_assoc|exact Hrest|].
      intros v Hv [E|Hin].
      * apply Hx. rewrite E. now apply in_map.
      * exact (Hfresh v (or_intror Hv) Hin).
Qed.

(** X22.  A list whose names already differ up to case passes the
    duplicate filter unchanged; so filtering twice is filtering once. *)
Theorem dedupe_fixes_distinct (usernames : list string) :
  (NoDup (map lower usernames) -> dedupe usernames = usernames) /\
  dedupe (dedupe usernames) = dedupe usernames.
Proof.
  assert (H : forall l, NoDup (map lower l) -> dedupe l = l).
  { intros l Hl. unfold dedupe.
    rewrite dedupe_loop_distinct; [reflexivity|exact Hl|].
    intros u _ []. }
  split; [apply H|].
  apply H. apply dedupe_spec.
Qed.

Lemma parse_line_some (line n : string) :
  parse_line line = Some n ->
  n = strip (lstrip_at (strip line)) /\
  startswith "#" (strip line) = false /\
  (2 <= len_str n)%nat /\
  strip n = n.
Proof.
  unfold parse_line.
  destruct (negb (strip line =? "")%str
            && negb (startswith "#" (strip line))) eqn:E1; [|discriminate].
  destruct (negb (strip (lstrip_at (strip line)) =? "")%str
            && (2 <=? Z.of_nat (len_str (strip (lstrip_at (strip line))))))
    eqn:E2; [|discriminate].
  intros [= <-].
  apply andb_true_iff in E1 as [_ E1]. apply andb_true_iff in E2 as [_ E2].
  apply negb_true_iff in E1. apply Z.leb_le in E2.
  split; [reflexivity|]. split; [exact E1|]. split; [lia|apply strip_idem].
Qed.

Lemma collect_usernames_from (lines acc : list string) (n : string) :
  In n (collect_usernames lines acc) ->
  In n acc \/ exists line, In line lines /\ parse_line line = Some n.
Proof.
  revert acc. induction lines as [|line rest IH]; intros acc H; [now left|].
  cbn [collect_usernames] in H.
  destruct (parse_line line) as [m|] eqn:Ep.
  - apply IH in H as [H|[l [Hl Hp]]].
    + apply in_app_or in H as [H|[<-|[]]]; [now left|].
      right. exists line. split; [now left|exact Ep].
    + right. exists l. split; [now right|exact Hp].
  - apply IH in H as [H|[l [Hl Hp]]]; [now left|].
    right. exists l. split; [now right|exact Hp].
Qed.

Lemma usernames_of_file_from (content n : string) :
  In n (usernames_of_file content) ->
  exists line, In line (splitlines content) /\ parse_line line = Some n.
Proof.
  unfold usernames_of_file. intros H.
  apply (subseq_in _ _ _ (proj1 (proj2 (dedupe_spec _)))) in H.
  apply collect_usernames_from in H as [[]|H]. exact H.
Qed.

(** X23.  Every name read from a file is a line of the file with the
    whitespace around it and the leading [@] signs removed; the line is no
    comment (its first visible character is not [#]), and the name has at
    least two characters and no whitespace at either end. *)
Theorem usernames_of_file_shape (content n : string) :
  In n (usernames_of_file content) ->
  exists line : string,
    In line (splitlines content) /\
    startswith "#" (strip line) = false /\
    n = strip (lstrip_at (strip line)) /\
    (2 <= len_str n)%nat /\
    strip n = n.
Proof.
  intros H. apply usernames_of_file_from in H as [line [Hl Hp]].
  apply parse_line_some in Hp as [E [Hc [Hlen Hs]]].
  exists line. auto.
Qed.

(** X24.  [handle_document] goes on to the bulk check only for a file
    whose name ends in [.txt], and then with the names read from it, which
    are at least one and at most 500 and pairwise different up to case. *)
Theorem bulk_check_only_within_limits
    (file_name : option string) (content : string) (usernames : list string) :
  plan_document file_name content = BulkCheck usernames ->
  (exists name, file_name = Some name /\ endswith ".txt" name = true) /\
  usernames = usernames_of_file content /\
  1 <= len usernames <= MAX_BULK_COUNT /\
  NoDup (map lower usernames).
Proof.
  unfold plan_document.
  destruct file_name as [name|]; [|discriminate].
  destruct ((name =? "")%str || negb (endswith ".txt" name)) eqn:Ef;
    [discriminate|].
  apply orb_false_iff in Ef as [_ Ef]. apply negb_false_iff in Ef.
  destruct (usernames_of_file content) as [|u rest] eqn:Eu; [discriminate|].
  destruct (Z.ltb_spec MAX_BULK_COUNT (len (u :: rest))) as [|Hle];
    [discriminate|].
  intros [= <-].
  split; [exists name; auto|]. split; [reflexivity|].
  split; [unfold len in *; cbn [List.length] in *; lia|].
  rewrite <- Eu. unfold usernames_of_file. apply dedupe_spec.
Qed.

End FileNamesProps.

Section FileNamesSamples.

#[local] Existing Instance ascii_fold.

Example splitlines_samples :
  splitlines ("ab" ++ chr newline) = ["ab"] /\
  splitlines ("ab" ++ chr newline ++ chr newline ++ "cd") = ["ab"; ""; "cd"] /\
  splitlines ("ab" ++ chr (char_of 13) ++ chr newline ++ "cd")
  = ["ab"; "cd"] /\
  splitlines "" = [].
Proof. repeat split. Qed.

(** A name is measured in characters: one Cyrillic letter is too short, two
    are enough. *)
Example parse_line_counts_characters :
  parse_line "я" = None /\ parse_line " @яя " = Some "яя".
Proof. split; reflexivity. Qed.

Example usernames_of_file_sample :
  usernames_of_file
    ("# my list" ++ chr newline ++ " @Alice " ++ chr newline ++ "bob"
     ++ chr newline ++ chr newline ++ "ALICE" ++ chr newline ++ "x"
     ++ chr newline ++ "Bob")
  = ["Alice"; "bob"].
Proof. reflexivity. Qed.

Lemma dedupe_keeps_first_in_order_sample :
  ["Alice"; "bob"; "ALICE"] = (["Alice"] ++ "bob" :: ["ALICE"])%list /\
  ~ In (lower "bob") (map lower ["Alice"]) /\
  In "bob" (dedupe ["Alice"; "bob"; "ALICE"]).
Proof.
  assert (H : ~ In (lower "bob") (map lower ["Alice"])).
  { intros [E|[]]. discriminate E. }
  split; [reflexivity|]. split; [exact H|].
  exact (proj2 (dedupe_keeps_first_in_order ["Alice"; "bob"; "ALICE"])
           ["Alice"] "bob" ["ALICE"] eq_refl H).
Defined.

Lemma dedupe_fixes_distinct_sample :
  NoDup (map lower ["Alice"; "bob"]) /\
  dedupe ["Alice"; "bob"] = ["Alice"; "bob"].
Proof.
  assert (H : NoDup (map lower ["Alice"; "bob"])).
  { repeat constructor.
    - intros [E|[]]. discriminate E.
    - intros []. }
  split; [exact H|].
  exact (proj1 (dedupe_fixes_distinct ["Alice"; "bob"]) H).
Defined.

Lemma usernames_of_file_shape_sample :
  let content := "# list" ++ chr newline ++ " @Alice " in
  In "Alice" (usernames_of_file content) /\
  exists line : string,
    In line (splitlines content) /\
    "Alice" = strip (lstrip_at (strip line)).
Proof.
  intros content.
  assert (H : In "Alice" (usernames_of_file content)) by (left; reflexivity).
  split; [exact H|].
  destruct (usernames_of_file_shape content "Alice" H)
    as [line [Hl [_ [E _]]]].
  exists line. auto.
Defined.

Lemma bulk_check_only_within_limits_sample :
  plan_document (Some "names.txt") ("alice" ++ chr newline ++ "Bob")
  = BulkCheck ["alice"; "Bob"] /\
  1 <= len ["alice"; "Bob"] <= MAX_BULK_COUNT.
Proof.
  split; [reflexivity|].
  exact (proj1 (proj2 (proj2 (bulk_check_only_within_limits
                                (Some "names.txt")
                                ("alice" ++ chr newline ++ "Bob")
                                ["alice"; "Bob"] eq_refl)))).
Defined.

Example plan_document_other_cases :
  plan_document (Some "names.csv") "alice" = InvalidFileType /\
  plan_document None "alice" = InvalidFileType /\
  plan_document (Some "names.txt") ("# nothing" ++ chr newline ++ "x")
  = FileEmpty.
Proof. repeat split. Qed.

Lemma dedupe_one_per_case_class_sample :
  In "ALICE" ["Alice"; "bob"; "ALICE"] /\
  exists v, In v (dedupe ["Alice"; "bob"; "ALICE"]) /\ lower v = lower "ALICE".
Proof.
  assert (H : In "ALICE" ["Alice"; "bob"; "ALICE"])
    by (right; right; left; reflexivity).
  split; [exact H|].
  exact (proj2 (dedupe_one_per_case_class ["Alice"; "bob"; "ALICE"])
           "ALICE" H).
Defined.

End FileNamesSamples.

(** ** The name taken from a text message *)

Lemma until_space_spaceless (s : string) : spaceless (until_space s) = true.
Proof.
  unfold spaceless. induction s as [|c t IH]; cbn; [reflexivity|].
  destruct (is_space c) eqn:Ec; cbn; [reflexivity|].
  now rewrite Ec, IH.
Qed.

Lemma strip_spaceless (s : string) : spaceless s = true -> strip s = s.
Proof.
  unfold spaceless, strip. intros H.
  assert (L : lstrip_by is_space s = s).
  { destruct s as [|c t]; [reflexivity|]. cbn in *.
    apply andb_true_iff in H as [Hc _]. apply negb_true_iff in Hc.
    now rewrite Hc. }
  rewrite L. clear L.
  induction s as [|c t IH]; cbn in *; [reflexivity|].
  apply andb_true_iff in H as [Hc Ht]. apply negb_true_iff in Hc.
  rewrite (IH Ht), Hc. now destruct t.
Qed.

Lemma no_blank_in_spaceless (s : string) :
  spaceless s = true -> str_in " " s = false.
Proof.
  unfold spaceless. induction s as [|c t IH]; [reflexivity|].
  cbn [forall_chars str_in startswith].
  intros H. apply andb_true_iff in H as [Hc Ht]. apply negb_true_iff in Hc.
  rewrite (IH Ht), orb_false_r.
  destruct (N.eqb_spec 32 c) as [<-|_]; [discriminate Hc|reflexivity].
Qed.

Lemma first_word_of_stripped (s : string) :
  strip s <> "" ->
  exists word : string,
    first_word (strip s) = inr word /\ word <> "" /\ spaceless word = true.
Proof.
  intros Hne. unfold first_word.
  assert (L : lstrip_by is_space (strip s) = strip s).
  { unfold strip. apply lstrip_rstrip_fixed, lstrip_idem. }
  rewrite L.
  destruct (strip s) as [|c t] eqn:Es; [contradiction|].
  pose proof (lstrip_head is_space _ c t L) as Hc.
  cbn [until_space]. rewrite Hc.
  exists (String c (until_space t)). split; [reflexivity|].
  split; [discriminate|].
  unfold spaceless. cbn. rewrite Hc. apply until_space_spaceless.
Qed.

(** X25.  Reading a name out of a message never fails.  A command (a text
    whose first visible character is a slash) gives no name; a name that
    is given is not empty, holds no blank, and has no whitespace at either
    end. *)
Theorem username_of_text_shape (message_text : string) :
  exists r : option string,
    username_of_text message_text = inr r /\
    (startswith "/" (strip message_text) = true -> r = None) /\
    (forall u, r = Some u ->
               u <> "" /\ str_in " " u = false /\ strip u = u).
Proof.
  unfold username_of_text.
  destruct (startswith "/" (strip message_text)) eqn:Ec.
  { exists None. split; [reflexivity|]. split; [reflexivity|discriminate]. }
  destruct (str_eqb_spec (strip (lstrip_at (strip message_text))) "")
    as [E|Hne].
  { exists None. split; [reflexivity|]. split; discriminate. }
  destruct (str_in " " (strip (lstrip_at (strip message_text)))) eqn:Eb.
  - destruct (first_word_of_stripped _ Hne) as [word [-> [Hw Hs]]].
    exists (Some word). split; [reflexivity|]. split; [discriminate|].
    intros u [= <-]. split; [exact Hw|].
    split; [now apply no_blank_in_spaceless|now apply strip_spaceless].
  - exists (Some (strip (lstrip_at (strip message_text)))).
    split; [reflexivity|]. split; [discriminate|].
    intros u [= <-]. split; [exact Hne|]. split; [exact Eb|apply strip_idem].
Qed.

Lemma username_of_text_shape_command :
  startswith "/" (strip " /start ") = true /\
  username_of_text " /start " = inr None.
Proof.
  split; [reflexivity|].
  destruct (username_of_text_shape " /start ") as [r [E [Hc _]]].
  rewrite E. f_equal. exact (Hc eq_refl).
Defined.

Example username_of_text_samples :
  username_of_text "  @Some_Name  " = inr (Some "Some_Name") /\
  username_of_text "@first second" = inr (Some "first") /\
  username_of_text "@@@" = inr None.
Proof. repeat split. Qed.

Lemma handle_chars_spaceless (h : string) :
  forall_chars is_handle_char h = true -> spaceless h = true.
Proof.
  unfold spaceless. induction h as [|c t IH]; cbn; [reflexivity|].
  intros H. apply andb_true_iff in H as [Hc Ht].
  now rewrite (handle_char_not_space c Hc), (IH Ht).
Qed.

Lemma username_of_plain_text (h : string) :
  class_run_2_24 h = true -> username_of_text h = inr (Some h).
Proof.
  intros Hrun. pose proof (class_run_chars h Hrun) as Hch.
  pose proof (handle_chars_spaceless h Hch) as Hsp.
  unfold username_of_text.
  rewrite (strip_spaceless h Hsp).
  assert (Hslash : startswith "/" h = false).
  { destruct h as [|c t]; [reflexivity|].
    cbn [forall_chars] in Hch. apply andb_true_iff in Hch as [Hc _].
    cbn [startswith].
    destruct (N.eqb_spec 47 c) as [<-|_]; [discriminate Hc|reflexivity]. }
  rewrite Hslash, (strip_handle_chars h Hch).
  destruct (str_eqb_spec h "") as [->|_]; [discriminate Hrun|].
  now rewrite (no_blank_in_spaceless h Hsp).
Qed.

(** X26.  A message that is just a handle of 2 to 24 class characters,
    with or without one [@] in front, yields that handle, unchanged, as
    the name to check. *)
Theorem username_of_text_handle (h : string) :
  class_run_2_24 h = true ->
  username_of_text h = inr (Some h) /\
  username_of_text ("@" ++ h) = inr (Some h).
Proof.
  intros Hrun. split; [now apply username_of_plain_text|].
  pose proof (class_run_chars h Hrun) as Hch.
  pose proof (handle_chars_spaceless h Hch) as Hsp.
  unfold username_of_text.
  assert (Hat : strip ("@" ++ h) = "@" ++ h).
  { apply strip_spaceless. unfold spaceless in *. cbn. exact Hsp. }
  rewrite Hat.
  change (startswith "/" ("@" ++ h)) with false. cbv iota.
  change (lstrip_at ("@" ++ h)) with (lstrip_at h).
  rewrite (strip_handle_chars h Hch).
  destruct (str_eqb_spec h "") as [->|_]; [discriminate Hrun|].
  now rewrite (no_blank_in_spaceless h Hsp).
Qed.

Lemma username_of_text_handle_sample :
  class_run_2_24 "Some_Name" = true /\
  username_of_text "@Some_Name" = inr (Some "Some_Name").
Proof.
  split; [reflexivity|].
  exact (proj2 (username_of_text_handle "Some_Name" eq_refl)).
Defined.

(** ** What a batch costs *)

Section BatchCostProps.

Context {U : Unicode} {T : Transport}.

Lemma request_count_nonneg (evs : list Event) : 0 <= request_count evs.
Proof. unfold request_count. lia. Qed.

Lemma check_username_counts
    (raw : string) (s s' : St) (out : PyExc + CheckResult) :
  check_username raw s = (out, s') ->
  exists evs : list Event,
    trace s' = (trace s ++ evs)%list /\
    request_count evs <= 6 /\ sleep_total evs <= 6000.
Proof.
  unfold check_username.
  destruct (validate_username (clean_username raw)); cbn [negb].
  - intros H. apply check_with_retry_events in H as [evs [Ht [_ [Hr Hs]]]].
    exists evs. auto.
  - unfold ret. intros [= _ <-]. exists [].
    split; [now rewrite app_nil_r|]. split; cbv; discriminate.
Qed.

Lemma bulk_loop_counts
    (total : Z) (items : list (Z * string)) (acc : list CheckResult)
    (s s' : St) (out : PyExc + list CheckResult) :
  bulk_loop total items acc s = (out, s') ->
  exists evs : list Event,
    trace s' = (trace s ++ evs)%list /\
    request_count evs <= 6 * len items /\
    sleep_total evs <= 6500 * len items.
Proof.
  revert acc s.
  induction items as [|[i x] rest IH]; intros acc s.
  - cbn [bulk_loop]. unfold ret. intros [= _ <-]. exists [].
    split; [now rewrite app_nil_r|]. split; cbv; discriminate.
  - cbn [bulk_loop].
    destruct (check_username x s) as [[e|r] s1] eqn:Ec;
      destruct (check_username_counts x s s1 _ Ec) as [A [Ta [Ra Sa]]].
    + intros H. apply IH in H as [B [Tb [Rb Sb]]].
      exists (A ++ B)%list. split; [now rewrite Tb, Ta, <- app_assoc|].
      rewrite request_count_app, sleep_total_app.
      unfold len in *. cbn [List.length]. lia.
    + unfold bind.
      destruct (i <? total - 1).
      * cbn [sleep]. intros H. apply IH in H as [B [Tb [Rb Sb]]].
        cbn [trace] in Tb.
        exists (A ++ [SLEEP 500] ++ B)%list.
        split; [now rewrite Tb, Ta, <- !app_assoc|].
        rewrite !request_count_app, !sleep_total_app.
        change (request_count [SLEEP 500]) with 0.
        change (sleep_total [SLEEP 500]) with 500.
        unfold len in *. cbn [List.length]. lia.
      * unfold ret. intros H. apply IH in H as [B [Tb [Rb Sb]]].
        exists (A ++ B)%list. split; [now rewrite Tb, Ta, <- app_assoc|].
        rewrite request_count_app, sleep_total_app.
        unfold len in *. cbn [List.length]. lia.
Qed.

Lemma enumerate_from_length (i : Z) (xs : list string) :
  List.length (enumerate_from i xs) = List.length xs.
Proof.
  revert i. induction xs as [|x rest IH]; intros i; cbn; [reflexivity|].
  now rewrite IH.
Qed.

(** X27.  A batch of [n] names sends at most [6 n] requests and sleeps at
    most [6.5 n] seconds in all, whatever the network does. *)
Theorem check_bulk_cost
    (xs : list string) (s s' : St) (out : PyExc + list CheckResult) :
  check_bulk xs s = (out, s') ->
  exists evs : list Event,
    trace s' = (trace s ++ evs)%list /\
    request_count evs <= 6 * len xs /\
    sleep_total evs <= 6500 * len xs.
Proof.
  destruct xs as [|x rest].
  - unfold check_bulk, ret. intros [= _ <-]. exists [].
    split; [now rewrite app_nil_r|]. split; cbv; discriminate.
  - unfold check_bulk. intros H.
    apply bulk_loop_counts in H as [evs [Ht [Hr Hs]]].
    unfold len in *. rewrite enumerate_from_length in Hr, Hs.
    exists evs. auto.
Qed.

End BatchCostProps.

Section BatchCostSamples.

#[local] Existing Instance ascii_fold.

Lemma check_bulk_cost_sample :
  let s0 := initial two_missing_pages in
  check_bulk ["a"; "ABC"] s0
  = (inr [format_error "a"; mkCheckResult "abc" AVAILABLE (Some msg_free)],
     @mkSt scripted []
       [SLEEP 500; GET (api_url "abc"); GET (TIKTOK_USER_URL "abc")])
  /\ exists evs : list Event,
       [SLEEP 500; GET (api_url "abc"); GET (TIKTOK_USER_URL "abc")]
       = (trace s0 ++ evs)%list /\
       request_count evs <= 6 * len ["a"; "ABC"].
Proof.
  intros s0. split; [reflexivity|].
  destruct (check_bulk_cost (U := ascii_fold) (T := scripted) ["a"; "ABC"] s0 _ _ eq_refl)
    as [evs [Ht [Hr _]]].
  exists evs. auto.
Defined.

End BatchCostSamples.
